(** * KTRLite: deterministic input preparation (orbit/template/ktrlite.py)

    A shallow embedding of the configuration normalisation, the knot
    placement and the per-fit pipeline of [KTRLiteModel], with the
    properties its specification states about them.

    Conventions of the embedding
    - Python [int] is [Z]; Python/NumPy floating values are exact rationals
      [Q] (no rounding of binary64 is modelled).  A quotient that need not
      be finite is an [npfloat := option Q], [None] standing for a value
      that is not finite; the response values, which may be [nan] or
      infinite on input, are [pyfloat]s.  Quotients are stored reduced
      ([Qred]) so that two equal floats are equal terms.
    - Raising is a result in [Error]; the exception classes are the
      constructors of [exn].
    - The collaborators imported from other modules ([sandwich_kernel],
      [make_fourier_series_df], [pd.infer_freq]) are fields of [externals]. *)

From Stdlib Require Import String DecimalString.
From Stdlib Require Import ZArith QArith Qround Qreduction List Bool Lia Lqa Sorted.
Import ListNotations.

Local Open Scope Z_scope.

(** ** Exceptions and results *)

Inductive exn : Type :=
| IllegalArgument (msg : string)
| ModelException (msg : string)
| TypeError
| IndexError
| ValueError
| ZeroDivisionError.

Inductive result (A : Type) : Type :=
| Ok (a : A)
| Error (e : exn).
Arguments Ok {A} a.
Arguments Error {A} e.

Definition bind {A B : Type} (r : result A) (k : A -> result B) : result B :=
  match r with
  | Ok a => k a
  | Error e => Error e
  end.

Notation "'do' x <- r ; k" := (bind r (fun x => k))
  (at level 10, x name, r at level 100, k at level 200).

(** ** Numeric helpers *)

(** [math.ceil(a / b)] on integers, by flooring division of the opposite. *)
Definition ceil_div (a b : Z) : Z := - ((- a) / b).

(** The comparison [a < b] of two numbers. *)
Definition Qlt_bool (a b : Q) : bool := negb (Qle_bool b a).

(** Python's [round] and [np.round]: to the nearest integer, ties to even. *)
Definition round_half_even (q : Q) : Z :=
  let f := Qfloor q in
  match Qcompare (q - inject_Z f) (1 # 2) with
  | Lt => f
  | Gt => f + 1
  | Eq => if Z.even f then f else f + 1
  end.

(** A float, finite or not. *)
Definition npfloat : Type := option Q.

(** NumPy's true division of two finite values: dividing by zero warns and
    yields a non-finite value. *)
Definition np_div (a b : Q) : npfloat :=
  if Qeq_bool b 0 then None else Some (Qred (a / b)).

(** A float of the response: finite, an infinity or [nan]. *)
Inductive pyfloat : Type :=
| Fin (q : Q)
| PosInf
| NegInf
| NaN.

(** [np.isnan]. *)
Definition isnan (x : pyfloat) : bool :=
  match x with
  | NaN => true
  | _ => false
  end.

(** Addition of two floats: [nan] absorbs, opposite infinities give
    [nan], an infinity absorbs a finite value. *)
Definition float_add (x y : pyfloat) : pyfloat :=
  match x, y with
  | NaN, _ | _, NaN => NaN
  | PosInf, NegInf | NegInf, PosInf => NaN
  | PosInf, _ | _, PosInf => PosInf
  | NegInf, _ | _, NegInf => NegInf
  | Fin a, Fin b => Fin (a + b)
  end.

(** Division of a float by a count. *)
Definition float_div_count (x : pyfloat) (n : nat) : pyfloat :=
  match x, n with
  | NaN, _ => NaN
  | PosInf, _ => PosInf
  | NegInf, _ => NegInf
  | Fin q, O =>
      if Qeq_bool q 0 then NaN
      else if Qle_bool 0 q then PosInf else NegInf
  | Fin q, S _ => Fin (Qred (q / inject_Z (Z.of_nat n)))
  end.

(** [np.arange(start, stop, step)] on integers. *)
Definition arange_len (start stop step : Z) : nat :=
  Z.to_nat (ceil_div (stop - start) step).

Definition np_arange (start stop step : Z) : result (list Z) :=
  if step =? 0 then Error ZeroDivisionError
  else Ok (map (fun k => start + Z.of_nat k * step)
               (seq 0 (arange_len start stop step))).

(** [np.sort] on an integer vector. *)
Fixpoint insert_sorted (x : Z) (l : list Z) : list Z :=
  match l with
  | [] => [x]
  | y :: l' => if x <=? y then x :: l else y :: insert_sorted x l'
  end.

Fixpoint np_sort (l : list Z) : list Z :=
  match l with
  | [] => []
  | x :: l' => insert_sorted x (np_sort l')
  end.

(** ** KnotPlacer: [_set_knots_tp] *)

Definition _set_knots_tp (knots_distance cutoff : Z) (knot_location : string)
  : result (list Z) :=
  if String.eqb knot_location "mid_point" then
    let knots_idx_start := round_half_even (knots_distance # 2) in
    np_arange knots_idx_start cutoff knots_distance
  else if String.eqb knot_location "end_point" then
    do idx <- np_arange (cutoff - 1) 0 (- knots_distance);
    Ok (np_sort idx)
  else Error (ModelException "Invalid knots segment option.").

(** ** Constructor arguments

    An argument that the caller may leave out, give as one number or give
    as a list. *)

Inductive arg (A : Type) : Type :=
| ArgNone
| ArgScalar (x : A)
| ArgList (l : list A).
Arguments ArgNone {A}.
Arguments ArgScalar {A} x.
Arguments ArgList {A} l.

Module Args.
Record t : Type := mk {
  seasonality : arg Q;
  seasonality_fs_order : arg Z;
  seasonal_initial_knot_scale : arg Q;
  seasonal_knot_scale : arg Q;
  span_level : Q;
  span_coefficients : Q;
  level_knot_dates : option (list Z);
  level_knot_length : option Z;
  coefficients_knot_length : option Z;
  knot_location : string;
  date_freq : option positive
}.

(** The defaults of [KTRLiteModel.__init__]. *)
Definition default : t := {|
  seasonality := ArgNone;
  seasonality_fs_order := ArgNone;
  seasonal_initial_knot_scale := ArgScalar 1%Q;
  seasonal_knot_scale := ArgScalar (1 # 10)%Q;
  span_level := (1 # 10)%Q;
  span_coefficients := (3 # 10)%Q;
  level_knot_dates := None;
  level_knot_length := None;
  coefficients_knot_length := None;
  knot_location := "mid_point";
  date_freq := None
|}.
End Args.

(** ** SeasonalityConfigurator: [_set_default_args] *)

Record seasonal_config : Type := {
  _seasonality : list Q;
  _seasonality_fs_order : list Z;
  _seasonal_initial_knot_scale : list Q;
  _seasonal_knot_scale : list Q
}.

(** The first [if]/[elif]: the private seasonality and order after it. *)
Definition default_seasonality (a : Args.t) : arg Q * arg Z :=
  match Args.seasonality a with
  | ArgNone => (ArgList [], ArgList [])
  | ArgScalar s => (ArgList [s], Args.seasonality_fs_order a)
  | ArgList l => (ArgList l, Args.seasonality_fs_order a)
  end.

(** Truth value of the private seasonality in a condition. *)
Definition truthy {A : Type} (x : arg A) : bool :=
  match x with
  | ArgList (_ :: _) => true
  | _ => false
  end.

(** [x is None]. *)
Definition is_None {A : Type} (x : arg A) : bool :=
  match x with
  | ArgNone => true
  | _ => false
  end.

(** The second [if]/[elif]: the private order after it. *)
Definition default_fs_order (seas : arg Q) (order : arg Z) : arg Z :=
  if truthy seas && is_None order then
    match seas with
    | ArgList l => ArgList (repeat 2 (length l))
    | _ => order
    end
  else
    match order with
    | ArgScalar o => ArgList [o]
    | _ => order
    end.

(** [len(x)]: a [TypeError] on [None]. *)
Definition py_len {A : Type} (x : arg A) : result (list A) :=
  match x with
  | ArgList l => Ok l
  | _ => Error TypeError
  end.

(** The loop [for k, order in enumerate(self._seasonality_fs_order)]. *)
Fixpoint check_fs_order (k : nat) (orders : list Z) (seas : list Q) : result unit :=
  match orders with
  | [] => Ok tt
  | order :: rest =>
      match nth_error seas k with
      | None => Error IndexError
      | Some s =>
          if Qlt_bool (s - 1) (inject_Z (2 * order))
          then Error (IllegalArgument "reduce seasonality_fs_order to avoid over-fitting")
          else check_fs_order (S k) rest seas
      end
  end.

(** A prior scale: one number is repeated once per seasonality, a list
    is kept. *)
Definition broadcast_scale (scale : arg Q) (n : nat) : result (list Q) :=
  match scale with
  | ArgList l => Ok l
  | ArgScalar x => Ok (repeat x n)
  | ArgNone => Error TypeError
  end.

Definition _set_default_args (a : Args.t) : result seasonal_config :=
  let '(seas0, order0) := default_seasonality a in
  let order1 := default_fs_order seas0 order0 in
  do orders <- py_len order1;
  do seas <- py_len seas0;
  if negb (Nat.eqb (length orders) (length seas))
  then Error (IllegalArgument "length of seasonality and fs_order not matching")
  else
    do _u <- check_fs_order 0 orders seas;
    do init_scale <- broadcast_scale (Args.seasonal_initial_knot_scale a) (length seas);
    do knot_scale <- broadcast_scale (Args.seasonal_knot_scale a) (length seas);
    Ok {| _seasonality := seas;
          _seasonality_fs_order := orders;
          _seasonal_initial_knot_scale := init_scale;
          _seasonal_knot_scale := knot_scale |}.

(** ** SeasonalBasisBuilder: [_set_seasonality_attributes] *)

(** Column names.  ['seas{}_fs_cos{}'.format(s, i)] and its sine twin are
    kept as the pair they are formatted from. *)
Inductive colname : Type :=
| seas_fs_cos (s : Q) (i : Z)
| seas_fs_sin (s : Q) (i : Z)
| col (name : string).

Definition Q_eqb (a b : Q) : bool :=
  (Qnum a =? Qnum b) && (Pos.eqb (Qden a) (Qden b)).

Definition colname_eqb (a b : colname) : bool :=
  match a, b with
  | seas_fs_cos s i, seas_fs_cos s' i' => Q_eqb s s' && (i =? i')
  | seas_fs_sin s i, seas_fs_sin s' i' => Q_eqb s s' && (i =? i')
  | col n, col n' => String.eqb n n'
  | _, _ => false
  end.

Record seasonal_attrs : Type := {
  regressor_col_gp : list (list colname);
  regressor_col : list colname;
  coefficients_initial_knot_scale : list Q;
  coefficients_knot_scale : list Q;
  num_of_regressors : nat
}.

(** [[x] * n] for an integer [n]: empty when [n] is not positive. *)
Definition py_repeat {A : Type} (x : A) (n : Z) : list A := repeat x (Z.to_nat n).

(** [range(1, order + 1)]. *)
Definition range1 (order : Z) : list Z := map Z.of_nat (seq 1 (Z.to_nat order)).

Definition fs_cols_of (s : Q) (order : Z) : list colname :=
  flat_map (fun i => [seas_fs_cos s i; seas_fs_sin s i]) (range1 order).

(** [l[idx]] for a non-negative index. *)
Definition py_index {A : Type} (l : list A) (idx : nat) : result A :=
  match nth_error l idx with
  | Some x => Ok x
  | None => Error IndexError
  end.

(** The loop [for idx, s in enumerate(self._seasonality)], with the four
    lists it extends as the accumulator. *)
Fixpoint seasonality_loop (c : seasonal_config) (idx : nat) (rest : list Q)
    (acc : seasonal_attrs) : result seasonal_attrs :=
  match rest with
  | [] => Ok acc
  | s :: rest' =>
      do order <- py_index (_seasonality_fs_order c) idx;
      do init_scale <- py_index (_seasonal_initial_knot_scale c) idx;
      let init' := coefficients_initial_knot_scale acc
                   ++ (py_repeat init_scale order ++ py_repeat init_scale order) in
      do knot_scale <- py_index (_seasonal_knot_scale c) idx;
      let knot' := coefficients_knot_scale acc
                   ++ (py_repeat knot_scale order ++ py_repeat knot_scale order) in
      let fs_cols := fs_cols_of s order in
      seasonality_loop c (S idx) rest'
        {| regressor_col_gp := regressor_col_gp acc ++ [fs_cols];
           regressor_col := regressor_col acc ++ fs_cols;
           coefficients_initial_knot_scale := init';
           coefficients_knot_scale := knot';
           num_of_regressors := num_of_regressors acc |}
  end.

Definition _set_seasonality_attributes (c : seasonal_config) : result seasonal_attrs :=
  do a <- seasonality_loop c 0 (_seasonality c)
            {| regressor_col_gp := [];
               regressor_col := [];
               coefficients_initial_knot_scale := [];
               coefficients_knot_scale := [];
               num_of_regressors := 0 |};
  Ok {| regressor_col_gp := regressor_col_gp a;
        regressor_col := regressor_col a;
        coefficients_initial_knot_scale := coefficients_initial_knot_scale a;
        coefficients_knot_scale := coefficients_knot_scale a;
        num_of_regressors := length (regressor_col a) |}.

(** ** The model object *)

(** A two-dimensional array: its shape and its rows. *)
Record ndarray2 : Type := {
  shape : nat * nat;
  rows : list (list npfloat)
}.

Record validation_state : Type := {
  response_offset : pyfloat;
  is_valid_response : option (list bool);
  which_valid_response : option (list nat);
  num_of_valid_response : nat
}.

(** The attributes [_set_kernel_matrix] reads and writes.  [None] is an
    attribute that is [None] or not yet set. *)
Record kernel_state : Type := {
  _level_knot_dates : option (list Z);
  date_freq : option positive;
  _cutoff : option Z;
  _knots_idx_level : option (list Z);
  knots_tp_level : option (list npfloat);
  kernel_level : option ndarray2;
  num_knots_level : option nat;
  kernel_coefficients : option ndarray2;
  num_knots_coefficients : option nat;
  _knots_idx_coef : option (list Z);
  knots_tp_coefficients : option (list npfloat);
  _coef_knot_dates : option (list Z)
}.

Record KTRLiteModel : Type := {
  args : Args.t;
  config : seasonal_config;
  attrs : seasonal_attrs;
  validation : validation_state;
  regressor_matrix : option ndarray2;
  kernels : kernel_state
}.

Definition __init__ (a : Args.t) : result KTRLiteModel :=
  do c <- _set_default_args a;
  do s <- _set_seasonality_attributes c;
  Ok {| args := a;
        config := c;
        attrs := s;
        validation := {| response_offset := Fin 0;
                         is_valid_response := None;
                         which_valid_response := None;
                         num_of_valid_response := 0 |};
        regressor_matrix := None;
        kernels := {| _level_knot_dates := Args.level_knot_dates a;
                      date_freq := Args.date_freq a;
                      _cutoff := None;
                      _knots_idx_level := None;
                      knots_tp_level := None;
                      kernel_level := None;
                      num_knots_level := None;
                      kernel_coefficients := None;
                      num_knots_coefficients := None;
                      _knots_idx_coef := None;
                      knots_tp_coefficients := None;
                      _coef_knot_dates := None |} |}.

(** ** Fit inputs and collaborators *)

(** The input table: its designated date column (timestamps counted in a
    base unit) and its other columns. *)
Record dataframe : Type := {
  date_values : list Z;
  columns : list (colname * list npfloat)
}.

Record training_meta : Type := {
  response : list pyfloat;
  num_of_observations : Z;
  training_start : Z;
  training_end : Z
}.

(** The functions imported from other modules.  [sandwich_kernel] may
    raise, as it does on an empty knot vector.  [make_fourier_series_df]
    is the generator on orders of at least 1, where it returns.
    [infer_freq_unit] is [np.timedelta64(1, pd.infer_freq(dates)[0])] in
    base units, or the exception raised on the way. *)
Record externals : Type := {
  sandwich_kernel : list npfloat -> list npfloat -> result ndarray2;
  make_fourier_series_df : dataframe -> Q -> Z -> Q -> Z -> dataframe;
  infer_freq_unit : list Z -> result positive
}.

(** ** ResponseValidator: [_set_validate_ktr_params] *)

Definition string_of_Z (z : Z) : string := NilZero.string_of_int (Z.to_int z).

Definition Qmax_b (a b : Q) : Q := if Qle_bool a b then b else a.

(** [np.max] of a list; it is only called on a non-empty one. *)
Definition np_max (l : list Q) : Q :=
  match l with
  | [] => 0%Q
  | x :: l' => fold_left Qmax_b l' x
  end.

(** A response value is valid when it is not [nan]. *)
Definition is_valid (x : pyfloat) : bool := negb (isnan x).

(** [np.sum] of a float vector. *)
Definition np_sum (l : list pyfloat) : pyfloat := fold_left float_add l (Fin 0).

(** [np.nanmean]: every [nan] is replaced by 0, the vector is summed, and
    the sum is divided by the number of entries that are not [nan]; with
    no such entry the quotient 0 / 0 is [nan]. *)
Definition np_nanmean (l : list pyfloat) : pyfloat :=
  let arr := map (fun x => if isnan x then Fin 0 else x) l in
  let cnt := length (filter is_valid l) in
  float_div_count (np_sum arr) cnt.

(** The slice [l[:m]]. *)
Definition py_slice_to {A : Type} (l : list A) (m : Z) : list A :=
  if m <? 0 then firstn (Z.to_nat (Z.of_nat (length l) + m)) l
  else firstn (Z.to_nat m) l.

(** [np.where(mask)[0]]. *)
Fixpoint np_where (i : nat) (mask : list bool) : list nat :=
  match mask with
  | [] => []
  | b :: mask' => if b then i :: np_where (S i) mask' else np_where (S i) mask'
  end.

Definition insufficient_history (n m : Z) : string :=
  ("Number of observations " ++ string_of_Z n
   ++ " is less than max seasonality " ++ string_of_Z m)%string.

Definition nonempty {A : Type} (l : list A) : bool :=
  match l with
  | [] => false
  | _ :: _ => true
  end.

Definition max_seasonality (c : seasonal_config) : Z :=
  round_half_even (np_max (_seasonality c)).

Definition _set_validate_ktr_params (c : seasonal_config) (meta : training_meta)
  : result validation_state :=
  let n := num_of_observations meta in
  do _u <- (if nonempty (_seasonality c) && (n <? max_seasonality c)
            then Error (ModelException (insufficient_history n (max_seasonality c)))
            else Ok tt);
  let offset :=
    if nonempty (_seasonality c)
    then np_nanmean (py_slice_to (response meta) (max_seasonality c))
    else np_nanmean (response meta) in
  let mask := map is_valid (response meta) in
  let which := np_where 0 mask in
  Ok {| response_offset := offset;
        is_valid_response := Some mask;
        which_valid_response := Some which;
        num_of_valid_response := length which |}.

(** ** [_make_seasonal_regressors] and [_set_regressor_matrix] *)

Fixpoint fourier_loop (E : externals) (c : seasonal_config) (shift : Z)
    (idx : nat) (rest : list Q) (df : dataframe) : result dataframe :=
  match rest with
  | [] => Ok df
  | s :: rest' =>
      do order <- py_index (_seasonality_fs_order c) idx;
      fourier_loop E c shift (S idx) rest'
        (make_fourier_series_df E df s order s shift)
  end.

Definition _make_seasonal_regressors (E : externals) (c : seasonal_config)
    (df : dataframe) (shift : Z) : result dataframe :=
  if (0 <? length (_seasonality c))%nat
  then fourier_loop E c shift 0 (_seasonality c) df
  else Ok df.

(** [np.zeros((n, k))]. *)
Definition np_zeros (n : Z) (k : nat) : result ndarray2 :=
  if n <? 0 then Error ValueError
  else Ok {| shape := (Z.to_nat n, k);
             rows := repeat (repeat (Some 0%Q) k) (Z.to_nat n) |}.

Definition lookup_col (name : colname) (cols : list (colname * list npfloat))
  : option (list npfloat) :=
  option_map snd (find (fun c => colname_eqb (fst c) name) cols).

Fixpoint unique_labels (l : list colname) : bool :=
  match l with
  | [] => true
  | x :: l' => negb (existsb (colname_eqb x) l') && unique_labels l'
  end.

(** [df.filter(items=items).values]: the named columns that exist, in the
    order of [items], as rows.  The selection reindexes the column axis,
    which raises [ValueError] when that axis has a label twice. *)
Definition df_filter_values (df : dataframe) (items : list colname)
  : result ndarray2 :=
  if unique_labels (map fst (columns df)) then
    let sel := flat_map (fun name =>
                           match lookup_col name (columns df) with
                           | Some c => [c]
                           | None => []
                           end) items in
    let n := length (date_values df) in
    Ok {| shape := (n, length sel);
          rows := map (fun i => map (fun c => nth i c None) sel) (seq 0 n) |}
  else Error ValueError.

Definition _set_regressor_matrix (a : seasonal_attrs) (df : dataframe)
    (meta : training_meta) : result ndarray2 :=
  do z <- np_zeros (num_of_observations meta) 0;
  if (0 <? num_of_regressors a)%nat
  then df_filter_values df (regressor_col a)
  else Ok z.

(** ** KernelAssembler: [_set_kernel_matrix] *)

(** [get_gap_between_dates]: the difference in units of [freq]. *)
Definition get_gap_between_dates (start_date end_date : Z) (freq : positive) : Q :=
  (inject_Z (end_date - start_date) / inject_Z (Zpos freq))%Q.

(** The knot distance: the configured length, else
    [math.ceil(cutoff / round(1 / span))]. *)
Definition knots_distance_of (knot_length : option Z) (span : Q) (cutoff : Z)
  : result Z :=
  match knot_length with
  | Some l => Ok l
  | None =>
      if Qeq_bool span 0 then Error ZeroDivisionError
      else
        let number_of_knots := round_half_even (1 / span) in
        if number_of_knots =? 0 then Error ZeroDivisionError
        else Ok (ceil_div cutoff number_of_knots)
  end.

(** [values[i]] with NumPy's wrap-around of a negative index. *)
Definition np_index (values : list Z) (i : Z) : result Z :=
  let n := Z.of_nat (length values) in
  if (0 <=? i) && (i <? n) then py_index values (Z.to_nat i)
  else if (- n <=? i) && (i <? 0) then py_index values (Z.to_nat (n + i))
  else Error IndexError.

(** [values[idx]] for an index vector. *)
Fixpoint np_take (values : list Z) (idx : list Z) : result (list Z) :=
  match idx with
  | [] => Ok []
  | i :: idx' =>
      do x <- np_index values i;
      do xs <- np_take values idx';
      Ok (x :: xs)
  end.

(** [(1 + knots_idx) / num_of_observations]. *)
Definition knots_tp_of_idx (idx : list Z) (n : Z) : list npfloat :=
  map (fun i => np_div (inject_Z (1 + i)) (inject_Z n)) idx.

(** The comprehension that keeps the dates within the observed period. *)
Definition within_training_period (dates values : list Z) : result (list Z) :=
  match dates with
  | [] => Ok []
  | _ :: _ =>
      do last_date <- np_index values (-1);
      do first_date <- np_index values 0;
      Ok (filter (fun x => (x <=? last_date) && (x >=? first_date)) dates)
  end.

(** [(gap(start, dates) + 1) / (gap(start, training_end) + 1)]. *)
Definition knots_tp_of_dates (start_date training_end : Z) (freq : positive)
    (dates : list Z) : list npfloat :=
  map (fun d => np_div (get_gap_between_dates start_date d freq + 1)
                       (get_gap_between_dates start_date training_end freq + 1))
      dates.

Definition time_points (n : Z) : result (list npfloat) :=
  do idx <- np_arange 1 (n + 1) 1;
  Ok (map (fun i => np_div (inject_Z i) (inject_Z n)) idx).

(** The level half of [_set_kernel_matrix]: the knot indices kept in
    [_knots_idx_level], the knot positions, the knot dates and the date
    frequency after it. *)
Definition level_knots (E : externals) (m : KTRLiteModel)
    (df : dataframe) (meta : training_meta)
  : result (option (list Z) * list npfloat * list Z * option positive) :=
  let k := kernels m in
  let n := num_of_observations meta in
  let cutoff := n in
  match _level_knot_dates k with
  | None =>
      do knots_distance <-
        knots_distance_of (Args.level_knot_length (args m))
                          (Args.span_level (args m)) cutoff;
      do knots_idx_level <-
        _set_knots_tp knots_distance cutoff (Args.knot_location (args m));
      do dates <- np_take (date_values df) knots_idx_level;
      Ok (Some knots_idx_level, knots_tp_of_idx knots_idx_level n,
          dates, date_freq k)
  | Some knot_dates =>
      do dates <- within_training_period knot_dates (date_values df);
      do freq <-
        match date_freq k with
        | Some f => Ok f
        | None => infer_freq_unit E (date_values df)
        end;
      let start_date := training_start meta in
      Ok (_knots_idx_level k,
          knots_tp_of_dates start_date (training_end meta) freq dates,
          dates, Some freq)
  end.

(** The coefficient half: knot indices, positions, dates, kernel and knot
    count after it. *)
Definition coefficient_knots (E : externals) (m : KTRLiteModel)
    (df : dataframe) (meta : training_meta) (tp : list npfloat)
  : result (option (list Z) * option (list npfloat) * option (list Z)
            * ndarray2 * nat) :=
  let k := kernels m in
  let n := num_of_observations meta in
  let cutoff := n in
  do zeros <- np_zeros n 0;
  if (0 <? num_of_regressors (attrs m))%nat then
    do knots_distance <-
      knots_distance_of (Args.coefficients_knot_length (args m))
                        (Args.span_coefficients (args m)) cutoff;
    do knots_idx_coef <-
      _set_knots_tp knots_distance cutoff (Args.knot_location (args m));
    let tp_coef := knots_tp_of_idx knots_idx_coef n in
    do dates <- np_take (date_values df) knots_idx_coef;
    do kernel_coef <- sandwich_kernel E tp tp_coef;
    Ok (Some knots_idx_coef, Some tp_coef, Some dates,
        kernel_coef, length tp_coef)
  else
    Ok (_knots_idx_coef k, knots_tp_coefficients k, _coef_knot_dates k,
        zeros, 0%nat).

Definition _set_kernel_matrix (E : externals) (m : KTRLiteModel)
    (df : dataframe) (meta : training_meta) : result kernel_state :=
  let n := num_of_observations meta in
  do tp <- time_points n;
  do lev <- level_knots E m df meta;
  let '(idx_level, tp_level, dates_level, freq_level) := lev in
  do kernel_lev <- sandwich_kernel E tp tp_level;
  do coef <- coefficient_knots E m df meta tp;
  let '(idx_coef, tp_coef, dates_coef, kernel_coef, n_coef) := coef in
  Ok {| _level_knot_dates := Some dates_level;
        date_freq := freq_level;
        _cutoff := Some n;
        _knots_idx_level := idx_level;
        knots_tp_level := Some tp_level;
        kernel_level := Some kernel_lev;
        num_knots_level := Some (length tp_level);
        kernel_coefficients := Some kernel_coef;
        num_knots_coefficients := Some n_coef;
        _knots_idx_coef := idx_coef;
        knots_tp_coefficients := tp_coef;
        _coef_knot_dates := dates_coef |}.

(** ** PipelineOrchestrator: [set_dynamic_attributes] *)

Definition set_dynamic_attributes (E : externals) (m : KTRLiteModel)
    (df : dataframe) (meta : training_meta) : result KTRLiteModel :=
  do v <- _set_validate_ktr_params (config m) meta;
  do df' <- _make_seasonal_regressors E (config m) df 0;
  do r <- _set_regressor_matrix (attrs m) df' meta;
  do k <- _set_kernel_matrix E m df' meta;
  Ok {| args := args m;
        config := config m;
        attrs := attrs m;
        validation := v;
        regressor_matrix := Some r;
        kernels := k |}.

(** What a fit call hands to the estimator. *)
Record published : Type := {
  pub_knots_tp_level : option (list npfloat);
  pub_kernel_level : option ndarray2;
  pub_kernel_coefficients : option ndarray2;
  pub_num_knots_level : option nat;
  pub_num_knots_coefficients : option nat;
  pub_regressor_matrix : option ndarray2;
  pub_validation : validation_state
}.

Definition published_state (m : KTRLiteModel) : published :=
  {| pub_knots_tp_level := knots_tp_level (kernels m);
     pub_kernel_level := kernel_level (kernels m);
     pub_kernel_coefficients := kernel_coefficients (kernels m);
     pub_num_knots_level := num_knots_level (kernels m);
     pub_num_knots_coefficients := num_knots_coefficients (kernels m);
     pub_regressor_matrix := regressor_matrix m;
     pub_validation := validation m |}.

(** ** Reference definitions used by the statements *)

(** The arithmetic progression [start + k * step] for [k] from [a], [n]
    terms. *)
Definition progression (start step : Z) (a n : nat) : list Z :=
  map (fun k => start + Z.of_nat k * step) (seq a n).


(** The two exceptions of [_set_default_args]. *)
Definition order_too_high : exn :=
  IllegalArgument "reduce seasonality_fs_order to avoid over-fitting".

Definition length_mismatch : exn :=
  IllegalArgument "length of seasonality and fs_order not matching".

(** The arguments [a] with another seasonality and order. *)
Definition with_seasonality (a : Args.t) (seas : arg Q) (order : arg Z) : Args.t :=
  {| Args.seasonality := seas;
     Args.seasonality_fs_order := order;
     Args.seasonal_initial_knot_scale := Args.seasonal_initial_knot_scale a;
     Args.seasonal_knot_scale := Args.seasonal_knot_scale a;
     Args.span_level := Args.span_level a;
     Args.span_coefficients := Args.span_coefficients a;
     Args.level_knot_dates := Args.level_knot_dates a;
     Args.level_knot_length := Args.level_knot_length a;
     Args.coefficients_knot_length := Args.coefficients_knot_length a;
     Args.knot_location := Args.knot_location a;
     Args.date_freq := Args.date_freq a |}.

(** The arguments [a] with other prior scales. *)
Definition with_scales (a : Args.t) (init_scale knot_scale : arg Q) : Args.t :=
  {| Args.seasonality := Args.seasonality a;
     Args.seasonality_fs_order := Args.seasonality_fs_order a;
     Args.seasonal_initial_knot_scale := init_scale;
     Args.seasonal_knot_scale := knot_scale;
     Args.span_level := Args.span_level a;
     Args.span_coefficients := Args.span_coefficients a;
     Args.level_knot_dates := Args.level_knot_dates a;
     Args.level_knot_length := Args.level_knot_length a;
     Args.coefficients_knot_length := Args.coefficients_knot_length a;
     Args.knot_location := Args.knot_location a;
     Args.date_freq := Args.date_freq a |}.

(** *** The mean that ignores missing entries

    The offset as the documentation words it, to compare [np_nanmean]
    with: the entries that are [nan] are left out; what is left has the
    arithmetic mean of its values when they are all finite, is [nan] when
    nothing is left or both infinities occur, and is the infinity that
    occurs otherwise. *)












(** A knot position in the interval (0, 1]. *)
Definition in_unit_interval (x : npfloat) : Prop :=
  match x with
  | Some q => (0 < q /\ q <= 1)%Q
  | None => False
  end.

(** Order on positions: both finite and the first below the second. *)
Definition position_lt (x y : npfloat) : Prop :=
  match x, y with
  | Some p, Some q => (p < q)%Q
  | _, _ => False
  end.

Definition strictly_increasing (l : list npfloat) : Prop :=
  StronglySorted position_lt l.

(** The arguments [a] with explicit level knot dates, a date frequency and
    a knot length for the level. *)
Definition with_level_knots (a : Args.t) (dates : option (list Z))
    (freq : option positive) (knot_length : option Z) : Args.t :=
  {| Args.seasonality := Args.seasonality a;
     Args.seasonality_fs_order := Args.seasonality_fs_order a;
     Args.seasonal_initial_knot_scale := Args.seasonal_initial_knot_scale a;
     Args.seasonal_knot_scale := Args.seasonal_knot_scale a;
     Args.span_level := Args.span_level a;
     Args.span_coefficients := Args.span_coefficients a;
     Args.level_knot_dates := dates;
     Args.level_knot_length := knot_length;
     Args.coefficients_knot_length := Args.coefficients_knot_length a;
     Args.knot_location := Args.knot_location a;
     Args.date_freq := freq |}.

(** Training metadata of [sample_meta] with another training window. *)
Definition with_window (meta : training_meta) (t0 t1 : Z) : training_meta :=
  {| response := response meta;
     num_of_observations := num_of_observations meta;
     training_start := t0;
     training_end := t1 |}.

(** ** Sample collaborators and inputs

    A concrete kernel, basis generator and frequency inference, and small
    tables, on which the statements below are evaluated. *)

Definition sample_kernel (tp knots : list npfloat) : result ndarray2 :=
  match knots with
  | [] => Error IndexError
  | _ :: _ => Ok {| shape := (length tp, length knots);
                    rows := map (fun _ => knots) tp |}
  end.

Definition sample_fourier (df : dataframe) (period : Q) (order : Z)
    (prefix : Q) (shift : Z) : dataframe :=
  {| date_values := date_values df;
     columns := columns df
                ++ map (fun c => (c, map (fun _ => Some 0%Q) (date_values df)))
                       (fs_cols_of prefix order) |}.

Definition sample_infer (dates : list Z) : result positive :=
  match dates with
  | a :: b :: _ =>
      match b - a with
      | Zpos u => Ok u
      | _ => Error TypeError
      end
  | _ => Error TypeError
  end.

Definition sample_externals : externals :=
  {| sandwich_kernel := sample_kernel;
     make_fourier_series_df := sample_fourier;
     infer_freq_unit := sample_infer |}.

(** [n] observations spaced [step] base units apart from date 0, with
    response [1, 2, ..., n]. *)
Definition sample_df (n : nat) (step : Z) : dataframe :=
  {| date_values := map (fun i => Z.of_nat i * step) (seq 0 n);
     columns := [] |}.

Definition sample_meta (n : nat) (step : Z) : training_meta :=
  {| response := map (fun i => Fin (inject_Z (Z.of_nat i))) (seq 1 n);
     num_of_observations := Z.of_nat n;
     training_start := 0;
     training_end := Z.of_nat (n - 1) * step |}.

(** Ten business days, Monday to Friday over two weeks, counted in days,
    with response [1, ..., 10]. *)
Definition business_df : dataframe :=
  {| date_values := [0; 1; 2; 3; 4; 7; 8; 9; 10; 11];
     columns := [] |}.

Definition business_meta : training_meta :=
  {| response := map (fun i => Fin (inject_Z (Z.of_nat i))) (seq 1 10);
     num_of_observations := 10;
     training_start := 0;
     training_end := 11 |}.

(** The array without rows and columns. *)
Definition empty_array : ndarray2 := {| shape := (0%nat, 0%nat); rows := [] |}.

(** The value of a result, with a fallback that is never taken on the
    samples. *)
Definition get {A : Type} (default : A) (r : result A) : A :=
  match r with
  | Ok a => a
  | Error _ => default
  end.

Definition empty_kernel_state : kernel_state :=
  {| _level_knot_dates := None;
     date_freq := None;
     _cutoff := None;
     _knots_idx_level := None;
     knots_tp_level := None;
     kernel_level := None;
     num_knots_level := None;
     kernel_coefficients := None;
     num_knots_coefficients := None;
     _knots_idx_coef := None;
     knots_tp_coefficients := None;
     _coef_knot_dates := None |}.

Definition empty_model : KTRLiteModel :=
  {| args := Args.default;
     config := {| _seasonality := [];
                  _seasonality_fs_order := [];
                  _seasonal_initial_knot_scale := [];
                  _seasonal_knot_scale := [] |};
     attrs := {| regressor_col_gp := [];
                 regressor_col := [];
                 coefficients_initial_knot_scale := [];
                 coefficients_knot_scale := [];
                 num_of_regressors := 0 |};
     validation := {| response_offset := NaN;
                      is_valid_response := None;
                      which_valid_response := None;
                      num_of_valid_response := 0 |};
     regressor_matrix := None;
     kernels := empty_kernel_state |}.

(** The model built from the given arguments. *)
Definition model_of (a : Args.t) : KTRLiteModel := get empty_model (__init__ a).

(** Weekly seasonality on the default arguments. *)
Definition weekly_args : Args.t :=
  {| Args.seasonality := ArgList [7%Q];
     Args.seasonality_fs_order := ArgList [2];
     Args.seasonal_initial_knot_scale := ArgScalar 1%Q;
     Args.seasonal_knot_scale := ArgScalar (1 # 10)%Q;
     Args.span_level := (1 # 10)%Q;
     Args.span_coefficients := (3 # 10)%Q;
     Args.level_knot_dates := None;
     Args.level_knot_length := None;
     Args.coefficients_knot_length := None;
     Args.knot_location := "mid_point";
     Args.date_freq := None |}.

(** ** [KTRLiteInitializer] and [set_init_values] *)

Module KTRLiteInitializer.
Record t : Type := mk {
  num_regressor : nat;
  num_knots_coefficients : option nat
}.

(** [__call__]: the dictionary of initial values, as its list of items.
    The key is [RegressionSamplingParameters.COEFFICIENTS_KNOT.value]. *)
Definition call (self : t) : result (list (string * ndarray2)) :=
  if (1 <? num_regressor self)%nat then
    match num_knots_coefficients self with
    | Some k =>
        do z <- np_zeros (Z.of_nat (num_regressor self)) k;
        Ok [("coef_knot"%string, z)]
    | None => Error TypeError
    end
  else Ok [].
End KTRLiteInitializer.

(** [set_init_values]: the initializer it stores in [_init_values], [None]
    when it stores nothing. *)
Definition set_init_values (m : KTRLiteModel) : option KTRLiteInitializer.t :=
  if (1 <? length (_seasonality (config m)))%nat
     && (0 <? num_of_regressors (attrs m))%nat
  then Some {| KTRLiteInitializer.num_regressor := num_of_regressors (attrs m);
               KTRLiteInitializer.num_knots_coefficients :=
                 num_knots_coefficients (kernels m) |}
  else None.

(** ** Closed forms used by the statements *)

(** One row per seasonality that the attribute loop visits: the period,
    its order and its two prior scales. *)
Definition attribute_rows (c : seasonal_config) : list (Q * (Z * (Q * Q))) :=
  combine (_seasonality c)
          (combine (_seasonality_fs_order c)
                   (combine (_seasonal_initial_knot_scale c)
                            (_seasonal_knot_scale c))).

Definition row_columns (r : Q * (Z * (Q * Q))) : list colname :=
  fs_cols_of (fst r) (fst (snd r)).

Definition row_initial_scales (r : Q * (Z * (Q * Q))) : list Q :=
  py_repeat (fst (snd (snd r))) (fst (snd r))
  ++ py_repeat (fst (snd (snd r))) (fst (snd r)).

Definition row_knot_scales (r : Q * (Z * (Q * Q))) : list Q :=
  py_repeat (snd (snd (snd r))) (fst (snd r))
  ++ py_repeat (snd (snd (snd r))) (fst (snd r)).

(** The model [m] with another knot location. *)
Definition with_knot_location (m : KTRLiteModel) (loc : string) : KTRLiteModel :=
  {| args := {| Args.seasonality := Args.seasonality (args m);
                Args.seasonality_fs_order := Args.seasonality_fs_order (args m);
                Args.seasonal_initial_knot_scale :=
                  Args.seasonal_initial_knot_scale (args m);
                Args.seasonal_knot_scale := Args.seasonal_knot_scale (args m);
                Args.span_level := Args.span_level (args m);
                Args.span_coefficients := Args.span_coefficients (args m);
                Args.level_knot_dates := Args.level_knot_dates (args m);
                Args.level_knot_length := Args.level_knot_length (args m);
                Args.coefficients_knot_length :=
                  Args.coefficients_knot_length (args m);
                Args.knot_location := loc;
                Args.date_freq := Args.date_freq (args m) |};
     config := config m;
     attrs := attrs m;
     validation := validation m;
     regressor_matrix := regressor_matrix m;
     kernels := kernels m |}.

(** The number of entries that are not missing. *)
Definition count_valid (l : list pyfloat) : nat := length (filter is_valid l).

(** Two seasonalities on the default arguments. *)
Definition two_seasons_args : Args.t :=
  with_seasonality Args.default (ArgList [7%Q; 12%Q]) (ArgList [2; 3]).


(** * Properties *)

(** ** Arithmetic of ceilings, rounding and ranges *)

Lemma ceil_div_lt_pos (a b k : Z) : 0 < b -> (k < ceil_div a b <-> k * b < a).
Proof.
  intros Hb. unfold ceil_div.
  pose proof (Z.div_mod (- a) b ltac:(lia)) as Hdm.
  pose proof (Z.mod_pos_bound (- a) b Hb) as Hm.
  split; intros H; nia.
Qed.

Lemma ceil_div_lt_neg (a b k : Z) : b < 0 -> (k < ceil_div a b <-> a < k * b).
Proof.
  intros Hb. unfold ceil_div.
  pose proof (Z.div_mod (- a) b ltac:(lia)) as Hdm.
  pose proof (Z.mod_neg_bound (- a) b Hb) as Hm.
  split; intros H; nia.
Qed.

Lemma round_half_even_floor (q : Q) :
  Qfloor q <= round_half_even q <= Qfloor q + 1.
Proof.
  unfold round_half_even.
  destruct (Qcompare _ _); [destruct (Z.even _) | |]; lia.
Qed.

(** The first mid-point knot lies between 0 and the knot distance. *)
Lemma mid_start_bounds (d : Z) : 0 < d -> 0 <= round_half_even (d # 2) <= d.
Proof.
  intros Hd. pose proof (round_half_even_floor (d # 2)) as H.
  assert (Hf : Qfloor (d # 2) = d / 2) by reflexivity.
  rewrite Hf in H.
  pose proof (Z.div_mod d 2 ltac:(lia)). pose proof (Z.mod_pos_bound d 2 ltac:(lia)).
  lia.
Qed.

Lemma np_arange_eq (start stop step : Z) :
  step <> 0 ->
  np_arange start stop step = Ok (progression start step 0 (arange_len start stop step)).
Proof.
  intros H. unfold np_arange. apply Z.eqb_neq in H. rewrite H. reflexivity.
Qed.

Lemma in_progression (start step : Z) (n : nat) (x : Z) :
  In x (progression start step 0 n) <->
  exists k : nat, (k < n)%nat /\ x = start + Z.of_nat k * step.
Proof.
  unfold progression. rewrite in_map_iff. split.
  - intros [k [Hk Hin]]. apply in_seq in Hin. exists k. split; [lia | auto].
  - intros [k [Hk Hx]]. exists k. split; [auto | apply in_seq; lia].
Qed.

Lemma arange_len_pos (start stop step : Z) (k : nat) :
  0 < step ->
  ((k < arange_len start stop step)%nat <-> start + Z.of_nat k * step < stop).
Proof.
  intros Hs. unfold arange_len.
  destruct (ceil_div_lt_pos (stop - start) step (Z.of_nat k) Hs) as [H1 H2].
  split; intros Hk.
  - assert (Z.of_nat k * step < stop - start) by (apply H1; lia). lia.
  - assert (Z.of_nat k < ceil_div (stop - start) step) by (apply H2; lia). lia.
Qed.

Lemma arange_len_neg (start stop step : Z) (k : nat) :
  step < 0 ->
  ((k < arange_len start stop step)%nat <-> stop < start + Z.of_nat k * step).
Proof.
  intros Hs. unfold arange_len.
  destruct (ceil_div_lt_neg (stop - start) step (Z.of_nat k) Hs) as [H1 H2].
  split; intros Hk.
  - assert (stop - start < Z.of_nat k * step) by (apply H1; lia). lia.
  - assert (Z.of_nat k < ceil_div (stop - start) step) by (apply H2; lia). lia.
Qed.

Lemma progression_ascending (start step : Z) (n a : nat) :
  0 < step -> StronglySorted Z.lt (progression start step a n).
Proof.
  intros Hs. revert a. induction n as [|n IH]; intros a; simpl.
  - constructor.
  - constructor; [apply IH |].
    apply Forall_forall. intros y Hy. apply in_map_iff in Hy.
    destruct Hy as [k [Hk Hin]]. apply in_seq in Hin. subst y. nia.
Qed.

Lemma progression_descending (start step : Z) (n a : nat) :
  step < 0 -> StronglySorted Z.gt (progression start step a n).
Proof.
  intros Hs. revert a. induction n as [|n IH]; intros a; simpl.
  - constructor.
  - constructor; [apply IH |].
    apply Forall_forall. intros y Hy. apply in_map_iff in Hy.
    destruct Hy as [k [Hk Hin]]. apply in_seq in Hin. subst y. nia.
Qed.

(** ** Sorting a descending vector reverses it *)

Lemma insert_sorted_last (x : Z) (l : list Z) :
  Forall (fun y => y < x) l -> insert_sorted x l = l ++ [x].
Proof.
  induction 1 as [|y l Hy Hl IH]; simpl; [reflexivity |].
  destruct (Z.leb_spec x y); [lia |]. now rewrite IH.
Qed.

Lemma np_sort_descending (l : list Z) :
  StronglySorted Z.gt l -> np_sort l = rev l.
Proof.
  induction 1 as [|x l Hs IH Hx]; simpl; [reflexivity |].
  rewrite IH. apply insert_sorted_last.
  apply Forall_rev. revert Hx. apply Forall_impl. intros; lia.
Qed.

Lemma sorted_snoc (l : list Z) (x : Z) :
  StronglySorted Z.lt l -> Forall (fun y => y < x) l ->
  StronglySorted Z.lt (l ++ [x]).
Proof.
  induction 1 as [|y l Hs IH Hy]; intros Hx; simpl.
  - repeat constructor.
  - inversion Hx; subst. constructor; [auto |].
    apply Forall_app. split; [assumption | repeat constructor; assumption].
Qed.

Lemma rev_descending (l : list Z) :
  StronglySorted Z.gt l -> StronglySorted Z.lt (rev l).
Proof.
  induction 1 as [|x l Hs IH Hx]; simpl; [constructor |].
  apply sorted_snoc; [assumption |].
  apply Forall_rev. revert Hx. apply Forall_impl. intros; lia.
Qed.

(** ** KnotPlacer *)

Lemma progression_length (start step : Z) (a n : nat) :
  length (progression start step a n) = n.
Proof. unfold progression. now rewrite length_map, length_seq. Qed.

(** C2.  For a positive knot distance and a positive cutoff, the mid-point
    placement returns the arithmetic progression that starts at
    [round(knots_distance / 2)], steps by [knots_distance] and holds exactly
    its terms below [cutoff]; the indices increase strictly, lie in
    [[0, cutoff)] and their number is [ceil(cutoff / knots_distance)] up to
    one. *)
Theorem mid_point_progression (knots_distance cutoff : Z) :
  0 < knots_distance -> 0 < cutoff ->
  exists knots_idx,
    _set_knots_tp knots_distance cutoff "mid_point" = Ok knots_idx /\
    knots_idx = progression (round_half_even (knots_distance # 2)) knots_distance
                            0 (length knots_idx) /\
    (forall x, In x knots_idx <->
               exists k : nat,
                 x = round_half_even (knots_distance # 2) + Z.of_nat k * knots_distance
                 /\ x < cutoff) /\
    StronglySorted Z.lt knots_idx /\
    Forall (fun x => 0 <= x < cutoff) knots_idx /\
    ceil_div cutoff knots_distance - 1 <= Z.of_nat (length knots_idx)
      <= ceil_div cutoff knots_distance + 1.
Proof.
  intros Hd Hc.
  set (start := round_half_even (knots_distance # 2)).
  pose proof (mid_start_bounds knots_distance Hd) as Hstart. fold start in Hstart.
  exists (progression start knots_distance 0 (arange_len start cutoff knots_distance)).
  assert (Hmem : forall x,
             In x (progression start knots_distance 0
                     (arange_len start cutoff knots_distance)) <->
             exists k : nat, x = start + Z.of_nat k * knots_distance /\ x < cutoff).
  { intros x. rewrite in_progression. split.
    - intros [k [Hk Hx]]. exists k. split; [exact Hx |].
      subst x. now apply arange_len_pos.
    - intros [k [Hx Hlt]]. exists k. split; [| exact Hx].
      apply arange_len_pos; [exact Hd | now subst x]. }
  repeat split.
  - unfold _set_knots_tp. simpl. fold start. apply np_arange_eq. lia.
  - now rewrite progression_length.
  - apply Hmem.
  - apply Hmem.
  - now apply progression_ascending.
  - apply Forall_forall. intros x Hx. apply Hmem in Hx.
    destruct Hx as [k [Hx Hlt]]. subst x. nia.
  - rewrite progression_length. unfold arange_len.
    destruct (ceil_div_lt_pos cutoff knots_distance
                (ceil_div cutoff knots_distance - 1) Hd) as [H1 _].
    destruct (ceil_div_lt_pos (cutoff - start) knots_distance
                (ceil_div cutoff knots_distance - 2) Hd) as [_ H2].
    assert (ceil_div cutoff knots_distance - 2
            < ceil_div (cutoff - start) knots_distance) by (apply H2; nia).
    lia.
  - rewrite progression_length. unfold arange_len.
    destruct (ceil_div_lt_pos cutoff knots_distance 0 Hd) as [_ H0].
    assert (0 < ceil_div cutoff knots_distance) by (apply H0; lia).
    destruct (ceil_div_lt_pos (cutoff - start) knots_distance
                (ceil_div (cutoff - start) knots_distance - 1) Hd) as [H1 _].
    destruct (ceil_div_lt_pos cutoff knots_distance
                (ceil_div (cutoff - start) knots_distance - 1) Hd) as [_ H2].
    assert (ceil_div (cutoff - start) knots_distance - 1
            < ceil_div cutoff knots_distance) by (apply H2; nia).
    lia.
Qed.

Lemma mid_point_progression_witness :
  exists knots_idx,
    _set_knots_tp 11 101 "mid_point" = Ok knots_idx /\
    knots_idx = progression (round_half_even (11 # 2)) 11 0 (length knots_idx) /\
    (forall x, In x knots_idx <->
               exists k : nat,
                 x = round_half_even (11 # 2) + Z.of_nat k * 11 /\ x < 101) /\
    StronglySorted Z.lt knots_idx /\
    Forall (fun x => 0 <= x < 101) knots_idx /\
    ceil_div 101 11 - 1 <= Z.of_nat (length knots_idx) <= ceil_div 101 11 + 1.
Proof. apply (mid_point_progression 11 101); lia. Defined.

(** C3.  For a positive knot distance and a positive cutoff, the end-point
    placement returns exactly the indices met when counting down from
    [cutoff - 1] by [knots_distance] while the index is positive, in
    ascending order; any location other than ['mid_point'] and
    ['end_point'] raises the invalid-location exception and returns no
    sequence. *)
Theorem end_point_and_invalid_location (knots_distance cutoff : Z) :
  0 < knots_distance -> 0 < cutoff ->
  (exists knots_idx,
     _set_knots_tp knots_distance cutoff "end_point" = Ok knots_idx /\
     (forall x, In x knots_idx <->
                exists k : nat,
                  x = cutoff - 1 - Z.of_nat k * knots_distance /\ 0 < x) /\
     StronglySorted Z.lt knots_idx) /\
  (forall knot_location,
     knot_location <> "mid_point"%string -> knot_location <> "end_point"%string ->
     _set_knots_tp knots_distance cutoff knot_location
     = Error (ModelException "Invalid knots segment option.")).
Proof.
  intros Hd Hc. split.
  - set (down := progression (cutoff - 1) (- knots_distance) 0
                   (arange_len (cutoff - 1) 0 (- knots_distance))).
    assert (Hdesc : StronglySorted Z.gt down)
      by (apply progression_descending; lia).
    exists (rev down). repeat split.
    + unfold _set_knots_tp. simpl.
      rewrite np_arange_eq by lia. simpl. fold down.
      now rewrite np_sort_descending.
    + intros Hx. apply in_rev in Hx. apply in_progression in Hx.
      destruct Hx as [k [Hk Hx]]. exists k.
      apply arange_len_neg in Hk; [| lia]. split; lia.
    + intros [k [Hx Hpos]]. apply in_rev. rewrite rev_involutive.
      apply in_progression. exists k. split; [| lia].
      apply arange_len_neg; lia.
    + now apply rev_descending.
  - intros loc Hmid Hend. unfold _set_knots_tp.
    apply String.eqb_neq in Hmid. apply String.eqb_neq in Hend.
    now rewrite Hmid, Hend.
Qed.

Lemma end_point_and_invalid_location_witness :
  (exists knots_idx,
     _set_knots_tp 3 10 "end_point" = Ok knots_idx /\
     (forall x, In x knots_idx <->
                exists k : nat, x = 10 - 1 - Z.of_nat k * 3 /\ 0 < x) /\
     StronglySorted Z.lt knots_idx) /\
  (forall knot_location,
     knot_location <> "mid_point"%string -> knot_location <> "end_point"%string ->
     _set_knots_tp 3 10 knot_location
     = Error (ModelException "Invalid knots segment option.")).
Proof. apply (end_point_and_invalid_location 3 10); lia. Defined.

(** ** Inversion of the fit steps *)

Lemma bind_Ok {A B : Type} (r : result A) (k : A -> result B) (b : B) :
  bind r k = Ok b -> exists a, r = Ok a /\ k a = Ok b.
Proof. destruct r as [a|e]; simpl; [eauto | discriminate]. Qed.

Ltac inv_bind H :=
  let x := fresh "x" in
  let Hx := fresh "Hx" in
  apply bind_Ok in H; destruct H as [x [Hx H]].


Lemma level_knots_index_branch (E : externals) m df meta r :
  _level_knot_dates (kernels m) = None ->
  level_knots E m df meta = Ok r ->
  exists d idx dates,
    knots_distance_of (Args.level_knot_length (args m)) (Args.span_level (args m))
                      (num_of_observations meta) = Ok d /\
    _set_knots_tp d (num_of_observations meta) (Args.knot_location (args m)) = Ok idx /\
    np_take (date_values df) idx = Ok dates /\
    r = (Some idx, knots_tp_of_idx idx (num_of_observations meta), dates,
         date_freq (kernels m)).
Proof.
  intros Hnone H. unfold level_knots in H. rewrite Hnone in H.
  inv_bind H. inv_bind H. inv_bind H. injection H as <-.
  eauto 10.
Qed.

Lemma level_knots_date_branch (E : externals) m df meta knot_dates r :
  _level_knot_dates (kernels m) = Some knot_dates ->
  level_knots E m df meta = Ok r ->
  exists dates freq,
    within_training_period knot_dates (date_values df) = Ok dates /\
    match date_freq (kernels m) with
    | Some f => Ok f
    | None => infer_freq_unit E (date_values df)
    end = Ok freq /\
    r = (_knots_idx_level (kernels m),
         knots_tp_of_dates (training_start meta) (training_end meta) freq dates,
         dates, Some freq).
Proof.
  intros Hsome H. unfold level_knots in H. rewrite Hsome in H.
  inv_bind H. inv_bind H. injection H as <-.
  eauto 10.
Qed.

Lemma coefficient_knots_regressors (E : externals) m df meta tp r :
  (0 < num_of_regressors (attrs m))%nat ->
  coefficient_knots E m df meta tp = Ok r ->
  exists d idx dates,
    knots_distance_of (Args.coefficients_knot_length (args m))
                      (Args.span_coefficients (args m))
                      (num_of_observations meta) = Ok d /\
    _set_knots_tp d (num_of_observations meta) (Args.knot_location (args m)) = Ok idx /\
    np_take (date_values df) idx = Ok dates /\
    r = (Some idx, Some (knots_tp_of_idx idx (num_of_observations meta)), Some dates,
         get empty_array
             (sandwich_kernel E tp (knots_tp_of_idx idx (num_of_observations meta))),
         length (knots_tp_of_idx idx (num_of_observations meta))).
Proof.
  intros Hpos H. unfold coefficient_knots in H.
  inv_bind H. apply Nat.ltb_lt in Hpos. rewrite Hpos in H.
  apply bind_Ok in H. destruct H as [d [Hd H]].
  apply bind_Ok in H. destruct H as [idx [Hidx H]].
  apply bind_Ok in H. destruct H as [dates [Hdates H]].
  apply bind_Ok in H. destruct H as [kc [Hkc H]].
  injection H as <-. exists d, idx, dates. rewrite Hkc. auto.
Qed.

Lemma coefficient_knots_kernel (E : externals) m df meta tp
    ic tc dc kc nc :
  (0 < num_of_regressors (attrs m))%nat ->
  coefficient_knots E m df meta tp = Ok (ic, Some tc, dc, kc, nc) ->
  sandwich_kernel E tp tc = Ok kc.
Proof.
  intros Hpos H. unfold coefficient_knots in H.
  inv_bind H. apply Nat.ltb_lt in Hpos. rewrite Hpos in H.
  apply bind_Ok in H. destruct H as [d [Hd H]].
  apply bind_Ok in H. destruct H as [idx [Hidx H]].
  apply bind_Ok in H. destruct H as [dates [Hdates H]].
  apply bind_Ok in H. destruct H as [kc' [Hkc H]].
  now injection H as _ <- _ <- _.
Qed.

Lemma coefficient_knots_no_regressors (E : externals) m df meta tp r :
  num_of_regressors (attrs m) = 0%nat ->
  coefficient_knots E m df meta tp = Ok r ->
  exists zeros,
    np_zeros (num_of_observations meta) 0 = Ok zeros /\
    r = (_knots_idx_coef (kernels m), knots_tp_coefficients (kernels m),
         _coef_knot_dates (kernels m), zeros, 0%nat).
Proof.
  intros Hz H. unfold coefficient_knots in H.
  inv_bind H. rewrite Hz in H. simpl in H. injection H as <-.
  eauto.
Qed.

Lemma set_kernel_matrix_inv (E : externals) m df meta k' :
  _set_kernel_matrix E m df meta = Ok k' ->
  exists tp idx_level tp_level dates_level freq_level
         idx_coef tp_coef dates_coef kernel_coef n_coef,
    time_points (num_of_observations meta) = Ok tp /\
    level_knots E m df meta = Ok (idx_level, tp_level, dates_level, freq_level) /\
    coefficient_knots E m df meta tp
      = Ok (idx_coef, tp_coef, dates_coef, kernel_coef, n_coef) /\
    k' = {| _level_knot_dates := Some dates_level;
            date_freq := freq_level;
            _cutoff := Some (num_of_observations meta);
            _knots_idx_level := idx_level;
            knots_tp_level := Some tp_level;
            kernel_level := Some (get empty_array (sandwich_kernel E tp tp_level));
            num_knots_level := Some (length tp_level);
            kernel_coefficients := Some kernel_coef;
            num_knots_coefficients := Some n_coef;
            _knots_idx_coef := idx_coef;
            knots_tp_coefficients := tp_coef;
            _coef_knot_dates := dates_coef |}.
Proof.
  intros H. unfold _set_kernel_matrix in H.
  apply bind_Ok in H. destruct H as [tp [Htp H]].
  apply bind_Ok in H.
  destruct H as [[[[idx_level tp_level] dates_level] freq_level] [Hlev H]].
  apply bind_Ok in H. destruct H as [kl [Hkl H]].
  apply bind_Ok in H.
  destruct H as [[[[[idx_coef tp_coef] dates_coef] kernel_coef] n_coef] [Hcoef H]].
  injection H as <-.
  exists tp, idx_level, tp_level, dates_level, freq_level,
         idx_coef, tp_coef, dates_coef, kernel_coef, n_coef.
  rewrite Hkl. cbn [get]. auto.
Qed.

Lemma set_kernel_matrix_level_kernel (E : externals) m df meta k'
    (tp tp_level : list npfloat) :
  _set_kernel_matrix E m df meta = Ok k' ->
  time_points (num_of_observations meta) = Ok tp ->
  knots_tp_level k' = Some tp_level ->
  exists kernel_lev,
    sandwich_kernel E tp tp_level = Ok kernel_lev /\
    kernel_level k' = Some kernel_lev.
Proof.
  intros H Htp Hl. unfold _set_kernel_matrix in H. rewrite Htp in H.
  cbn [bind] in H. apply bind_Ok in H.
  destruct H as [[[[idx_level tl] dates_level] freq_level] [Hlev H]].
  apply bind_Ok in H. destruct H as [kl [Hkl H]].
  apply bind_Ok in H.
  destruct H as [[[[[idx_coef tp_coef] dates_coef] kernel_coef] n_coef] [Hcoef H]].
  injection H as <-. cbn in Hl. injection Hl as <-. eauto.
Qed.

(** ** Knot distance *)



(** ** SeasonalityConfigurator *)

Lemma Qlt_bool_iff (a b : Q) : Qlt_bool a b = true <-> (a < b)%Q.
Proof.
  unfold Qlt_bool. rewrite negb_true_iff. split; intros H.
  - apply Qnot_le_lt. intros Hle. apply Qle_bool_iff in Hle. congruence.
  - destruct (Qle_bool b a) eqn:Hb; [| reflexivity].
    apply Qle_bool_iff in Hb. exfalso. now apply (Qlt_not_le a b).
Qed.

Lemma Qlt_bool_false_iff (a b : Q) : Qlt_bool a b = false <-> (b <= a)%Q.
Proof.
  unfold Qlt_bool. rewrite negb_false_iff. apply Qle_bool_iff.
Qed.

(** The loop over the orders either finds no order above its bound, or
    raises at one that is. *)
Lemma check_fs_order_cases (seas : list Q) (orders : list Z) (k : nat) :
  (check_fs_order k orders seas = Ok tt /\
   forall j o s, nth_error orders j = Some o -> nth_error seas (k + j) = Some s ->
                 (inject_Z (2 * o) <= s - 1)%Q)
  \/ (check_fs_order k orders seas = Error order_too_high /\
      exists j o s, nth_error orders j = Some o /\ nth_error seas (k + j) = Some s /\
                    (s - 1 < inject_Z (2 * o))%Q)
  \/ (exists j, (j < length orders)%nat /\ nth_error seas (k + j) = None).
Proof.
  revert k. induction orders as [|order rest IH]; intros k;
    cbn [check_fs_order length].
  - left. split; [reflexivity |]. intros [|j] o s Hj; discriminate.
  - destruct (nth_error seas k) as [s|] eqn:Hs.
    + destruct (Qlt_bool (s - 1) (inject_Z (2 * order))) eqn:Hlt.
      * right; left. split; [reflexivity |].
        exists 0%nat, order, s. rewrite Nat.add_0_r.
        repeat split; auto. now apply Qlt_bool_iff.
      * destruct (IH (S k)) as [[Hok Hall] | [[Herr Hex] | Hout]].
        -- left. split; [exact Hok |].
           intros [|j] o s' Hj Hs'; simpl in Hj.
           ++ injection Hj as <-. rewrite Nat.add_0_r in Hs'.
              rewrite Hs in Hs'. injection Hs' as <-.
              now apply Qlt_bool_false_iff.
           ++ apply (Hall j); [exact Hj |].
              now replace (S k + j)%nat with (k + S j)%nat by lia.
        -- right; left. split; [exact Herr |].
           destruct Hex as (j & o & s' & Hj & Hs' & Hlt').
           exists (S j), o, s'. repeat split; auto.
           now replace (k + S j)%nat with (S k + j)%nat by lia.
        -- right; right. destruct Hout as (j & Hj & Hn).
           exists (S j). split; [lia |].
           now replace (k + S j)%nat with (S k + j)%nat by lia.
    + right; right. exists 0%nat. split; [lia |]. now rewrite Nat.add_0_r.
Qed.

Lemma set_default_args_lists (a : Args.t) (seas : list Q) (orders : list Z) :
  Args.seasonality a = ArgList seas ->
  Args.seasonality_fs_order a = ArgList orders ->
  _set_default_args a =
  if negb (Nat.eqb (length orders) (length seas))
  then Error length_mismatch
  else
    do _u <- check_fs_order 0 orders seas;
    do init_scale <- broadcast_scale (Args.seasonal_initial_knot_scale a) (length seas);
    do knot_scale <- broadcast_scale (Args.seasonal_knot_scale a) (length seas);
    Ok {| _seasonality := seas;
          _seasonality_fs_order := orders;
          _seasonal_initial_knot_scale := init_scale;
          _seasonal_knot_scale := knot_scale |}.
Proof.
  intros Hs Ho. unfold _set_default_args, default_seasonality.
  rewrite Hs, Ho. unfold default_fs_order.
  destruct seas; reflexivity.
Qed.

(** The attribute loop runs through when every list it indexes is long
    enough. *)
Lemma seasonality_loop_total (c : seasonal_config) (rest : list Q) :
  forall idx acc,
    (idx + length rest <= length (_seasonality_fs_order c))%nat ->
    (idx + length rest <= length (_seasonal_initial_knot_scale c))%nat ->
    (idx + length rest <= length (_seasonal_knot_scale c))%nat ->
    exists a, seasonality_loop c idx rest acc = Ok a.
Proof.
  induction rest as [|s rest IH]; intros idx acc Ho Hi Hk; simpl in *.
  - eauto.
  - unfold py_index.
    destruct (nth_error (_seasonality_fs_order c) idx) eqn:E1;
      [| apply nth_error_None in E1; lia].
    destruct (nth_error (_seasonal_initial_knot_scale c) idx) eqn:E2;
      [| apply nth_error_None in E2; lia].
    destruct (nth_error (_seasonal_knot_scale c) idx) eqn:E3;
      [| apply nth_error_None in E3; lia].
    simpl. apply IH; lia.
Qed.

Lemma set_seasonality_attributes_total (c : seasonal_config) :
  length (_seasonality c) = length (_seasonality_fs_order c) ->
  (length (_seasonality c) <= length (_seasonal_initial_knot_scale c))%nat ->
  (length (_seasonality c) <= length (_seasonal_knot_scale c))%nat ->
  exists a, _set_seasonality_attributes c = Ok a.
Proof.
  intros H1 H2 H3. unfold _set_seasonality_attributes.
  destruct (seasonality_loop_total c (_seasonality c) 0
              {| regressor_col_gp := [];
                 regressor_col := [];
                 coefficients_initial_knot_scale := [];
                 coefficients_knot_scale := [];
                 num_of_regressors := 0 |}) as [a Ha]; simpl; try lia.
  rewrite Ha. simpl. eauto.
Qed.

(** C6.  For a seasonality list and an order list of equal length, the
    model is constructed only if [2 * order[k] <= seasonality[k] - 1] at
    every index [k], and construction raises the order-too-high exception
    as soon as one index has [2 * order[k] > seasonality[k] - 1]; when the
    inequality holds everywhere the order check passes and, with the
    prior scales given as numbers, construction succeeds. *)
Theorem fs_order_accept_reject (a : Args.t) (seas : list Q) (orders : list Z) :
  Args.seasonality a = ArgList seas ->
  Args.seasonality_fs_order a = ArgList orders ->
  length seas = length orders ->
  (forall m, __init__ a = Ok m ->
     forall k s o, nth_error seas k = Some s -> nth_error orders k = Some o ->
                   (inject_Z (2 * o) <= s - 1)%Q) /\
  ((exists k s o, nth_error seas k = Some s /\ nth_error orders k = Some o /\
                  (s - 1 < inject_Z (2 * o))%Q) ->
   _set_default_args a = Error order_too_high /\
   __init__ a = Error order_too_high) /\
  ((forall k s o, nth_error seas k = Some s -> nth_error orders k = Some o ->
                  (inject_Z (2 * o) <= s - 1)%Q) ->
   check_fs_order 0 orders seas = Ok tt /\
   forall x y,
     Args.seasonal_initial_knot_scale a = ArgScalar x ->
     Args.seasonal_knot_scale a = ArgScalar y ->
     exists m, __init__ a = Ok m /\
               _seasonality (config m) = seas /\
               _seasonality_fs_order (config m) = orders).
Proof.
  intros Hs Ho Hlen.
  pose proof (set_default_args_lists a seas orders Hs Ho) as Hdef.
  rewrite <- Hlen, Nat.eqb_refl in Hdef. simpl negb in Hdef. cbv iota in Hdef.
  destruct (check_fs_order_cases seas orders 0)
    as [[Hok Hall] | [[Herr Hex] | Hout]].
  - (* every order is within its bound *)
    rewrite Hok in Hdef. simpl bind in Hdef.
    split; [| split].
    + intros m _ k s o Hks Hko. now apply (Hall k o s).
    + intros (k & s & o & Hks & Hko & Hlt). exfalso.
      apply (Qlt_not_le _ _ Hlt). now apply (Hall k o s).
    + intros _. split; [exact Hok |]. intros x y Hx Hy.
      rewrite Hx, Hy in Hdef. simpl in Hdef.
      destruct (set_seasonality_attributes_total
                  {| _seasonality := seas;
                     _seasonality_fs_order := orders;
                     _seasonal_initial_knot_scale := repeat x (length seas);
                     _seasonal_knot_scale := repeat y (length seas) |})
        as [at' Hat]; simpl; rewrite ?repeat_length; try lia.
      unfold __init__. rewrite Hdef. simpl bind. rewrite Hat. simpl.
      eexists. repeat split.
  - (* some order is above its bound *)
    rewrite Herr in Hdef. simpl bind in Hdef.
    split; [| split].
    + intros m Hm. unfold __init__ in Hm. rewrite Hdef in Hm. discriminate.
    + intros _. split; [exact Hdef |]. unfold __init__. now rewrite Hdef.
    + intros Hall. exfalso.
      destruct Hex as (j & o & s & Hj & Hsj & Hlt).
      apply (Qlt_not_le _ _ Hlt). now apply (Hall j s o).
  - (* the two lists have the same length *)
    exfalso. destruct Hout as (j & Hj & Hn).
    apply nth_error_None in Hn. simpl in Hn. lia.
Qed.

Lemma fs_order_accept_reject_witness :
  (exists m, __init__ weekly_args = Ok m /\
             _seasonality (config m) = [7%Q] /\
             _seasonality_fs_order (config m) = [2]) /\
  __init__ {| Args.seasonality := ArgList [7%Q; 4%Q];
              Args.seasonality_fs_order := ArgList [3; 2];
              Args.seasonal_initial_knot_scale := ArgScalar 1%Q;
              Args.seasonal_knot_scale := ArgScalar (1 # 10)%Q;
              Args.span_level := (1 # 10)%Q;
              Args.span_coefficients := (3 # 10)%Q;
              Args.level_knot_dates := None;
              Args.level_knot_length := None;
              Args.coefficients_knot_length := None;
              Args.knot_location := "mid_point";
              Args.date_freq := None |} = Error order_too_high.
Proof.
  split.
  - destruct (fs_order_accept_reject weekly_args [7%Q] [2]
                eq_refl eq_refl eq_refl) as (_ & _ & Hacc).
    destruct Hacc as [_ Hacc].
    + intros [|[|k]] s o Hks Hko; simpl in Hks, Hko; try discriminate.
      injection Hks as <-. injection Hko as <-.
      unfold Qle. simpl. lia.
    + apply (Hacc 1%Q (1 # 10)%Q); reflexivity.
  - match goal with
    | |- __init__ ?a = _ =>
        destruct (fs_order_accept_reject a [7%Q; 4%Q] [3; 2]
                    eq_refl eq_refl eq_refl) as (_ & Hrej & _)
    end.
    apply Hrej. exists 1%nat, 4%Q, 2. repeat split.
Defined.

Lemma py_len_Ok {A : Type} (x : arg A) (l : list A) :
  py_len x = Ok l -> x = ArgList l.
Proof. destruct x; simpl; intros [=]; now subst. Qed.

Lemma set_default_args_Ok (a : Args.t) (c : seasonal_config) :
  _set_default_args a = Ok c ->
  exists order0,
    default_seasonality a = (ArgList (_seasonality c), order0) /\
    default_fs_order (ArgList (_seasonality c)) order0
      = ArgList (_seasonality_fs_order c) /\
    length (_seasonality_fs_order c) = length (_seasonality c) /\
    check_fs_order 0 (_seasonality_fs_order c) (_seasonality c) = Ok tt /\
    broadcast_scale (Args.seasonal_initial_knot_scale a) (length (_seasonality c))
      = Ok (_seasonal_initial_knot_scale c) /\
    broadcast_scale (Args.seasonal_knot_scale a) (length (_seasonality c))
      = Ok (_seasonal_knot_scale c).
Proof.
  unfold _set_default_args.
  destruct (default_seasonality a) as [seas0 order0].
  intros H.
  apply bind_Ok in H. destruct H as [orders [Horders H]].
  apply bind_Ok in H. destruct H as [seas [Hseas H]].
  apply py_len_Ok in Horders. apply py_len_Ok in Hseas. subst seas0.
  destruct (Nat.eqb (length orders) (length seas)) eqn:Hlen;
    simpl in H; [| discriminate].
  apply Nat.eqb_eq in Hlen.
  apply bind_Ok in H. destruct H as [[] [Hchk H]].
  apply bind_Ok in H. destruct H as [init_scale [Hinit H]].
  apply bind_Ok in H. destruct H as [knot_scale [Hknot H]].
  injection H as <-. simpl. exists order0. auto 10.
Qed.

(** C8, as stated, fails: when no seasonality is given, a scalar order is
    dropped and the order list is empty, not the one-element list. *)
Lemma scalar_order_dropped_without_seasonality :
  exists c,
    _set_default_args (with_seasonality Args.default ArgNone (ArgScalar 3)) = Ok c /\
    _seasonality_fs_order c = [] /\
    _seasonality_fs_order c <> [3].
Proof. eexists. repeat split. discriminate. Qed.

(** C8, amended.  A scalar seasonality becomes a one-element list; a scalar
    order becomes a one-element list whenever a seasonality is given, and
    without a seasonality both lists are empty; with no order given every
    order is 2, so that seasonality [s] alone is the same configuration as
    [[s]] with orders [[2]]; and a final order list whose length differs
    from that of the seasonality list raises the length exception. *)
Theorem default_args_normalisation (a : Args.t) :
  (forall c, _set_default_args a = Ok c ->
     (forall s, Args.seasonality a = ArgScalar s -> _seasonality c = [s]) /\
     (forall o, Args.seasonality_fs_order a = ArgScalar o ->
                Args.seasonality a <> ArgNone ->
                _seasonality_fs_order c = [o]) /\
     (Args.seasonality a = ArgNone ->
      _seasonality c = [] /\ _seasonality_fs_order c = []) /\
     (Args.seasonality_fs_order a = ArgNone ->
      _seasonality_fs_order c = repeat 2 (length (_seasonality c)))) /\
  (forall s,
     _set_default_args (with_seasonality a (ArgScalar s) ArgNone)
     = _set_default_args (with_seasonality a (ArgList [s]) (ArgList [2]))) /\
  (forall seas order0 orders,
     default_seasonality a = (ArgList seas, order0) ->
     default_fs_order (ArgList seas) order0 = ArgList orders ->
     length orders <> length seas ->
     _set_default_args a = Error length_mismatch /\
     __init__ a = Error length_mismatch).
Proof.
  split; [| split].
  - intros c Hc. apply set_default_args_Ok in Hc.
    destruct Hc as (order0 & Hseas & Horder & Hlen & _).
    unfold default_seasonality in Hseas. unfold default_fs_order in Horder.
    split; [| split; [| split]].
    + intros s Hs. rewrite Hs in Hseas. now injection Hseas as <-.
    + intros o Ho Hsome. rewrite Ho in Hseas.
      destruct (Args.seasonality a); [contradiction | |];
        injection Hseas as H1 H2; rewrite <- H2 in Horder;
        rewrite andb_false_r in Horder; now injection Horder as <-.
    + intros Hnone. rewrite Hnone in Hseas. injection Hseas as H1 H2.
      rewrite <- H1, <- H2 in Horder. simpl in Horder.
      injection Horder as <-. now split.
    + intros Hnone. rewrite Hnone in Hseas.
      destruct (Args.seasonality a); injection Hseas as H1 H2;
        rewrite <- H1, <- H2 in Horder; simpl in Horder.
      * rewrite <- H1. now injection Horder as <-.
      * rewrite <- H1. now injection Horder as <-.
      * rewrite <- H1. destruct l; simpl in Horder; [discriminate |].
        now injection Horder as <-.
  - intros s. reflexivity.
  - intros seas order0 orders Hseas Horder Hlen.
    assert (H : _set_default_args a = Error length_mismatch).
    { unfold _set_default_args. rewrite Hseas, Horder. simpl.
      apply Nat.eqb_neq in Hlen. now rewrite Hlen. }
    split; [exact H |]. unfold __init__. now rewrite H.
Qed.

Lemma default_args_normalisation_witness :
  (exists c,
     _set_default_args (with_seasonality Args.default (ArgScalar 12%Q) (ArgScalar 3))
     = Ok c /\ _seasonality c = [12%Q] /\ _seasonality_fs_order c = [3]) /\
  __init__ (with_seasonality Args.default (ArgList [7%Q; 12%Q]) (ArgScalar 2))
  = Error length_mismatch.
Proof.
  split.
  - eexists. split; [reflexivity |].
    destruct (default_args_normalisation
                (with_seasonality Args.default (ArgScalar 12%Q) (ArgScalar 3)))
      as (Hok & _ & _).
    destruct (Hok _ eq_refl) as (Hs & Ho & _).
    split; [apply (Hs _ eq_refl) | apply (Ho _ eq_refl); discriminate].
  - destruct (default_args_normalisation
                (with_seasonality Args.default (ArgList [7%Q; 12%Q]) (ArgScalar 2)))
      as (_ & _ & Hmis).
    apply (Hmis [7%Q; 12%Q] (ArgScalar 2) [2]); [reflexivity | reflexivity |].
    simpl. lia.
Defined.

(** ** Prior scales *)

(** Indexing a scale list that is shorter than the seasonality list stops
    the attribute loop with an [IndexError]. *)
Lemma seasonality_loop_short (c : seasonal_config) (rest : list Q) :
  forall idx acc,
    (idx + length rest <= length (_seasonality_fs_order c))%nat ->
    (length (_seasonal_initial_knot_scale c) < idx + length rest)%nat
    \/ (length (_seasonal_knot_scale c) < idx + length rest)%nat ->
    (idx <= length (_seasonal_initial_knot_scale c))%nat ->
    (idx <= length (_seasonal_knot_scale c))%nat ->
    seasonality_loop c idx rest acc = Error IndexError.
Proof.
  induction rest as [|s rest IH]; intros idx acc Ho Hshort Hi Hk; simpl in *.
  - lia.
  - unfold py_index.
    destruct (nth_error (_seasonality_fs_order c) idx) eqn:E1;
      [| apply nth_error_None in E1; lia].
    simpl.
    destruct (nth_error (_seasonal_initial_knot_scale c) idx) eqn:E2;
      [| reflexivity].
    simpl.
    destruct (nth_error (_seasonal_knot_scale c) idx) eqn:E3;
      [| reflexivity].
    simpl.
    assert (idx < length (_seasonal_initial_knot_scale c))%nat
      by (apply nth_error_Some; congruence).
    assert (idx < length (_seasonal_knot_scale c))%nat
      by (apply nth_error_Some; congruence).
    apply IH; lia.
Qed.

Lemma short_scale_list_raises (a : Args.t) (c : seasonal_config) :
  _set_default_args a = Ok c ->
  (length (_seasonal_initial_knot_scale c) < length (_seasonality c))%nat
  \/ (length (_seasonal_knot_scale c) < length (_seasonality c))%nat ->
  __init__ a = Error IndexError.
Proof.
  intros Hc Hshort. unfold __init__. rewrite Hc. simpl.
  apply set_default_args_Ok in Hc. destruct Hc as (_ & _ & _ & Hlen & _).
  unfold _set_seasonality_attributes.
  rewrite seasonality_loop_short; simpl; auto; lia.
Qed.

(** C10.  A prior scale given as one number is repeated once per
    seasonality and a list is kept as it is, whatever its length; the
    attribute loop then indexes the list at every seasonality position, and
    for a list shorter than the seasonality list construction ends in an
    out-of-range access ([IndexError]), not in a configuration exception. *)
Theorem prior_scale_broadcast_unchecked :
  (forall a c, _set_default_args a = Ok c ->
     (forall x, Args.seasonal_initial_knot_scale a = ArgScalar x ->
                _seasonal_initial_knot_scale c = repeat x (length (_seasonality c))) /\
     (forall l, Args.seasonal_initial_knot_scale a = ArgList l ->
                _seasonal_initial_knot_scale c = l) /\
     (forall x, Args.seasonal_knot_scale a = ArgScalar x ->
                _seasonal_knot_scale c = repeat x (length (_seasonality c))) /\
     (forall l, Args.seasonal_knot_scale a = ArgList l ->
                _seasonal_knot_scale c = l)) /\
  (exists a c l,
     Args.seasonal_initial_knot_scale a = ArgList l /\
     _set_default_args a = Ok c /\
     (length l < length (_seasonality c))%nat /\
     __init__ a = Error IndexError).
Proof.
  split.
  - intros a c Hc. apply set_default_args_Ok in Hc.
    destruct Hc as (_ & _ & _ & _ & _ & Hinit & Hknot).
    unfold broadcast_scale in Hinit, Hknot.
    split; [| split; [| split]].
    + intros x Hx. rewrite Hx in Hinit. now injection Hinit as <-.
    + intros l Hl. rewrite Hl in Hinit. now injection Hinit as <-.
    + intros x Hx. rewrite Hx in Hknot. now injection Hknot as <-.
    + intros l Hl. rewrite Hl in Hknot. now injection Hknot as <-.
  - exists (with_scales
              (with_seasonality Args.default (ArgList [7%Q; 12%Q]) (ArgList [2; 2]))
              (ArgList [1%Q]) (ArgScalar (1 # 10)%Q)).
    eexists. exists [1%Q].
    split; [reflexivity |]. split; [reflexivity |].
    split; [simpl; lia | reflexivity].
Qed.

Lemma prior_scale_broadcast_unchecked_witness :
  exists c,
    _set_default_args weekly_args = Ok c /\
    _seasonal_initial_knot_scale c = [1%Q] /\
    _seasonal_knot_scale c = [(1 # 10)%Q].
Proof.
  eexists. split; [reflexivity |].
  destruct prior_scale_broadcast_unchecked as [Hb _].
  destruct (Hb weekly_args _ eq_refl) as (Hi & _ & Hk & _).
  split; [apply (Hi _ eq_refl) | apply (Hk _ eq_refl)].
Defined.

(** ** ResponseValidator *)







(** [np.round] returns a nearest integer, the even one at a tie. *)
Lemma round_half_even_nearest (q : Q) :
  (inject_Z (round_half_even q) - (1 # 2) <= q)%Q /\
  (q <= inject_Z (round_half_even q) + (1 # 2))%Q /\
  ((q == inject_Z (round_half_even q) - (1 # 2))%Q
   \/ (q == inject_Z (round_half_even q) + (1 # 2))%Q ->
   Z.even (round_half_even q) = true).
Proof.
  pose proof (Qfloor_le q) as Hlo. pose proof (Qlt_floor q) as Hhi.
  rewrite inject_Z_plus in Hhi. change (inject_Z 1) with 1%Q in Hhi.
  unfold round_half_even.
  destruct (Qcompare (q - inject_Z (Qfloor q)) (1 # 2)) eqn:Hc.
  - apply Qeq_alt in Hc.
    assert (Hq : (q == inject_Z (Qfloor q) + (1 # 2))%Q) by lra.
    destruct (Z.even (Qfloor q)) eqn:He.
    + split; [lra | split; [lra | auto]].
    + rewrite inject_Z_plus. change (inject_Z 1) with 1%Q.
      split; [lra | split; [lra | intros _]].
      rewrite Z.even_add, He. reflexivity.
  - apply Qlt_alt in Hc.
    split; [lra | split; [lra | intros [H | H]; lra]].
  - apply Qgt_alt in Hc. rewrite inject_Z_plus. change (inject_Z 1) with 1%Q.
    split; [lra | split; [lra | intros [H | H]; lra]].
Qed.

(** *** [np.nanmean] is the mean that ignores missing entries *)









(** ** Zero regressors *)

Lemma np_zeros_shape (n : Z) (k : nat) (z : ndarray2) :
  np_zeros n k = Ok z -> shape z = (Z.to_nat n, k).
Proof.
  unfold np_zeros. destruct (n <? 0); [discriminate |].
  now intros [= <-].
Qed.

Lemma init_inv (a : Args.t) (m : KTRLiteModel) :
  __init__ a = Ok m ->
  _set_default_args a = Ok (config m) /\
  _set_seasonality_attributes (config m) = Ok (attrs m) /\
  args m = a /\
  _level_knot_dates (kernels m) = Args.level_knot_dates a /\
  date_freq (kernels m) = Args.date_freq a.
Proof.
  unfold __init__. intros H.
  apply bind_Ok in H. destruct H as [c [Hc H]].
  apply bind_Ok in H. destruct H as [s [Hs H]].
  injection H as <-. simpl. auto.
Qed.

Lemma no_seasonality_attrs (c : seasonal_config) (s : seasonal_attrs) :
  _seasonality c = [] ->
  _set_seasonality_attributes c = Ok s ->
  regressor_col s = [] /\ num_of_regressors s = 0%nat.
Proof.
  intros He. unfold _set_seasonality_attributes. rewrite He. simpl.
  now intros [= <-].
Qed.

(** C9.  With no seasonality configured, the regressor-column list is
    empty, the basis step returns the table as it received it, and every
    fit that completes publishes a regressor matrix and a coefficient
    kernel matrix of shape [(num_of_observations, 0)] and zero coefficient
    knots. *)
Theorem zero_regressor_case (E : externals) (a : Args.t) (m : KTRLiteModel)
    (df : dataframe) (meta : training_meta) :
  __init__ a = Ok m ->
  _seasonality (config m) = [] ->
  regressor_col (attrs m) = [] /\
  num_of_regressors (attrs m) = 0%nat /\
  _make_seasonal_regressors E (config m) df 0 = Ok df /\
  (forall m', set_dynamic_attributes E m df meta = Ok m' ->
     exists r kc,
       regressor_matrix m' = Some r /\
       shape r = (Z.to_nat (num_of_observations meta), 0%nat) /\
       kernel_coefficients (kernels m') = Some kc /\
       shape kc = (Z.to_nat (num_of_observations meta), 0%nat) /\
       num_knots_coefficients (kernels m') = Some 0%nat /\
       regressor_col (attrs m') = []).
Proof.
  intros Hinit He.
  destruct (init_inv a m Hinit) as (_ & Hattrs & _).
  destruct (no_seasonality_attrs _ _ He Hattrs) as [Hcol Hnum].
  assert (Hmk : _make_seasonal_regressors E (config m) df 0 = Ok df)
    by (unfold _make_seasonal_regressors; now rewrite He).
  repeat split; auto.
  intros m' Hfit. unfold set_dynamic_attributes in Hfit.
  apply bind_Ok in Hfit. destruct Hfit as [v [_ Hfit]].
  rewrite Hmk in Hfit. simpl bind in Hfit.
  apply bind_Ok in Hfit. destruct Hfit as [r [Hr Hfit]].
  apply bind_Ok in Hfit. destruct Hfit as [k [Hk Hfit]].
  injection Hfit as <-. simpl.
  unfold _set_regressor_matrix in Hr.
  apply bind_Ok in Hr. destruct Hr as [z [Hz Hr]].
  rewrite Hnum in Hr. simpl in Hr. injection Hr as <-.
  apply set_kernel_matrix_inv in Hk.
  destruct Hk as (tp & idx_level & tp_level & dates_level & freq_level
                  & idx_coef & tp_coef & dates_coef & kernel_coef & n_coef
                  & _ & _ & Hcoef & ->).
  destruct (coefficient_knots_no_regressors E m df meta tp _ Hnum Hcoef)
    as (zeros & Hzeros & Heq).
  injection Heq as -> -> -> -> ->. simpl.
  exists z, zeros. repeat split; auto using np_zeros_shape.
Qed.

Lemma zero_regressor_case_witness :
  let m := model_of Args.default in
  exists m' r kc,
    set_dynamic_attributes sample_externals m (sample_df 10 1) (sample_meta 10 1)
    = Ok m' /\
    regressor_matrix m' = Some r /\ shape r = (10%nat, 0%nat) /\
    kernel_coefficients (kernels m') = Some kc /\ shape kc = (10%nat, 0%nat) /\
    num_knots_coefficients (kernels m') = Some 0%nat.
Proof.
  intros m.
  destruct (zero_regressor_case sample_externals Args.default m
              (sample_df 10 1) (sample_meta 10 1) eq_refl eq_refl)
    as (_ & _ & _ & Hfit).
  destruct (Hfit (get empty_model
                    (set_dynamic_attributes sample_externals m
                       (sample_df 10 1) (sample_meta 10 1)))
              ltac:(vm_compute; reflexivity))
    as (r & kc & Hr & Hsr & Hkc & Hskc & Hn & _).
  eexists. exists r, kc.
  split; [vm_compute; reflexivity |].
  repeat split; assumption.
Defined.

(** ** Calendar-date knots *)

Lemma gap_plus_one (s d : Z) (u : positive) :
  (get_gap_between_dates s d u + 1 == (d - s + Zpos u) # u)%Q.
Proof.
  unfold get_gap_between_dates. rewrite <- Qmake_Qdiv.
  unfold Qeq, Qplus. simpl. lia.
Qed.

Lemma gap_plus_one_pos (s d : Z) (u : positive) :
  s <= d -> (0 < get_gap_between_dates s d u + 1)%Q.
Proof.
  intros H. rewrite gap_plus_one. unfold Qlt. simpl. lia.
Qed.

Lemma gap_plus_one_le (s d e : Z) (u : positive) :
  d <= e -> (get_gap_between_dates s d u + 1 <= get_gap_between_dates s e u + 1)%Q.
Proof.
  intros H. rewrite !gap_plus_one. unfold Qle. simpl. nia.
Qed.

Lemma gap_plus_one_lt (s d e : Z) (u : positive) :
  d < e -> (get_gap_between_dates s d u + 1 < get_gap_between_dates s e u + 1)%Q.
Proof.
  intros H. rewrite !gap_plus_one. unfold Qlt. simpl. nia.
Qed.

Lemma np_div_pos (a b : Q) :
  (0 < b)%Q -> exists q, np_div a b = Some q /\ (q == a / b)%Q.
Proof.
  intros Hb. unfold np_div.
  destruct (Qeq_bool b 0) eqn:Hz.
  - apply Qeq_bool_iff in Hz. rewrite Hz in Hb. now apply Qlt_irrefl in Hb.
  - eexists. split; [reflexivity | apply Qred_correct].
Qed.

Lemma np_div_in_unit (a b : Q) :
  (0 < a)%Q -> (a <= b)%Q -> in_unit_interval (np_div a b).
Proof.
  intros Ha Hab.
  assert (Hb : (0 < b)%Q) by (eapply Qlt_le_trans; eauto).
  destruct (np_div_pos a b Hb) as (q & -> & Hq). simpl. rewrite Hq. split.
  - apply Qlt_shift_div_l; [exact Hb |]. now rewrite Qmult_0_l.
  - apply Qle_shift_div_r; [exact Hb |]. now rewrite Qmult_1_l.
Qed.

Lemma np_div_lt (a a' b : Q) :
  (0 < b)%Q -> (a < a')%Q -> position_lt (np_div a b) (np_div a' b).
Proof.
  intros Hb Hlt.
  destruct (np_div_pos a b Hb) as (q & -> & Hq).
  destruct (np_div_pos a' b Hb) as (q' & -> & Hq').
  simpl. rewrite Hq, Hq'. unfold Qdiv.
  apply Qmult_lt_compat_r; [now apply Qinv_lt_0_compat | exact Hlt].
Qed.

Lemma within_training_period_inv (dates values kept : list Z) :
  within_training_period dates values = Ok kept ->
  (dates = [] /\ kept = [])
  \/ exists first_date last_date,
       np_index values 0 = Ok first_date /\
       np_index values (-1) = Ok last_date /\
       kept = filter (fun x => (x <=? last_date) && (x >=? first_date)) dates.
Proof.
  unfold within_training_period. destruct dates as [|d dates].
  - intros [= <-]. now left.
  - intros H. right.
    apply bind_Ok in H. destruct H as [last_date [Hl H]].
    apply bind_Ok in H. destruct H as [first_date [Hf H]].
    injection H as <-. eauto.
Qed.

Lemma filter_sorted (f : Z -> bool) (l : list Z) :
  StronglySorted Z.lt l -> StronglySorted Z.lt (filter f l).
Proof.
  induction 1 as [|x l Hs IH Hx]; simpl; [constructor |].
  destruct (f x); [| exact IH].
  constructor; [exact IH |].
  apply Forall_forall. intros y Hy. apply filter_In in Hy.
  rewrite Forall_forall in Hx. now apply Hx.
Qed.

Lemma positions_sorted (s e : Z) (u : positive) (l : list Z) :
  StronglySorted Z.lt l ->
  (l <> [] -> (0 < get_gap_between_dates s e u + 1)%Q) ->
  strictly_increasing (knots_tp_of_dates s e u l).
Proof.
  unfold strictly_increasing, knots_tp_of_dates.
  induction 1 as [|x l Hs IH Hx]; intros Hb; simpl; [constructor |].
  assert (Hpos : (0 < get_gap_between_dates s e u + 1)%Q)
    by (apply Hb; discriminate).
  constructor; [apply IH; intros _; exact Hpos |].
  apply Forall_forall. intros y Hy. apply in_map_iff in Hy.
  destruct Hy as [d [<- Hd]]. rewrite Forall_forall in Hx.
  apply np_div_lt; [exact Hpos |]. apply gap_plus_one_lt. now apply Hx.
Qed.

(** C5, as stated, fails: the positions keep the order of the supplied
    dates, so dates given out of order give positions that do not increase;
    and a training start after a kept date gives a position below 0. *)
Lemma date_knots_unsorted_or_outside :
  (exists k',
     _set_kernel_matrix sample_externals
       (model_of (with_level_knots Args.default (Some [5; 2]) (Some 1%positive) None))
       (sample_df 10 1) (sample_meta 10 1) = Ok k' /\
     knots_tp_level k' = Some [Some (3 # 5)%Q; Some (3 # 10)%Q] /\
     ~ strictly_increasing [Some (3 # 5)%Q; Some (3 # 10)%Q]) /\
  (exists k',
     _set_kernel_matrix sample_externals
       (model_of (with_level_knots Args.default (Some [2]) (Some 1%positive) None))
       (sample_df 10 1) (with_window (sample_meta 10 1) 5 9) = Ok k' /\
     knots_tp_level k' = Some [Some (-2 # 5)%Q] /\
     ~ Forall in_unit_interval [Some (-2 # 5)%Q]).
Proof.
  split.
  - eexists. split; [vm_compute; reflexivity |]. split; [reflexivity |].
    intros H. inversion H as [|x l _ Hall]; subst.
    inversion Hall as [|y l' Hlt _]; subst.
    simpl in Hlt. unfold Qlt in Hlt. simpl in Hlt. lia.
  - eexists. split; [vm_compute; reflexivity |]. split; [reflexivity |].
    intros H. inversion H as [|x l Hin _]; subst.
    simpl in Hin. destruct Hin as [Hpos _]. unfold Qlt in Hpos. simpl in Hpos. lia.
Qed.

(** C5, amended.  With explicit level knot dates, the dates within the
    first and the last observed date are kept, in the order given, and each
    kept date [d] is mapped to
    [(gap(start, d) + 1) / (gap(start, training_end) + 1)] in the given or
    inferred frequency; when the training window covers the observed dates
    every position lies in (0, 1], and the positions increase strictly when
    moreover the supplied dates do. *)
Theorem date_knot_positions (E : externals) (m : KTRLiteModel)
    (df : dataframe) (meta : training_meta) (knot_dates : list Z)
    (k' : kernel_state) :
  _level_knot_dates (kernels m) = Some knot_dates ->
  _set_kernel_matrix E m df meta = Ok k' ->
  exists kept freq,
    ((knot_dates = [] /\ kept = [])
     \/ exists first_date last_date,
          np_index (date_values df) 0 = Ok first_date /\
          np_index (date_values df) (-1) = Ok last_date /\
          kept = filter (fun x => (x <=? last_date) && (x >=? first_date)) knot_dates) /\
    (date_freq (kernels m) = Some freq
     \/ (date_freq (kernels m) = None /\ infer_freq_unit E (date_values df) = Ok freq)) /\
    _level_knot_dates k' = Some kept /\
    knots_tp_level k'
    = Some (map (fun d =>
                   np_div (get_gap_between_dates (training_start meta) d freq + 1)
                          (get_gap_between_dates (training_start meta)
                                                 (training_end meta) freq + 1))
                kept) /\
    (forall first_date last_date,
       np_index (date_values df) 0 = Ok first_date ->
       np_index (date_values df) (-1) = Ok last_date ->
       training_start meta <= first_date ->
       last_date <= training_end meta ->
       forall tp, knots_tp_level k' = Some tp ->
         Forall in_unit_interval tp /\
         (StronglySorted Z.lt knot_dates -> strictly_increasing tp)).
Proof.
  intros Hdates H.
  apply set_kernel_matrix_inv in H.
  destruct H as (tp & idx_level & tp_level & dates_level & freq_level
                 & idx_coef & tp_coef & dates_coef & kernel_coef & n_coef
                 & _ & Hlev & _ & ->).
  destruct (level_knots_date_branch E m df meta knot_dates _ Hdates Hlev)
    as (kept & freq & Hkept & Hfreq & Heq).
  injection Heq as -> -> -> ->.
  exists kept, freq. simpl.
  pose proof (within_training_period_inv _ _ _ Hkept) as Hinv.
  split; [exact Hinv |]. split.
  { destruct (date_freq (kernels m)) as [f|].
    - left. now injection Hfreq as ->.
    - right. auto. }
  split; [reflexivity |]. split; [reflexivity |].
  intros first_date last_date Hfirst Hlast Hstart Hend tp' [= <-].
  assert (Hin : forall d, In d kept ->
                  training_start meta <= d <= training_end meta).
  { intros d Hd. destruct Hinv as [[_ ->] | (f & l & Hf & Hl & ->)].
    - contradiction.
    - rewrite Hfirst in Hf. rewrite Hlast in Hl.
      injection Hf as <-. injection Hl as <-.
      apply filter_In in Hd. destruct Hd as [_ Hd].
      apply andb_true_iff in Hd. lia. }
  split.
  - apply Forall_forall. intros x Hx. apply in_map_iff in Hx.
    destruct Hx as [d [<- Hd]]. apply Hin in Hd.
    apply np_div_in_unit.
    + apply gap_plus_one_pos. lia.
    + apply gap_plus_one_le. lia.
  - intros Hsorted. apply positions_sorted.
    + destruct Hinv as [[_ ->] | (f & l & _ & _ & ->)];
        [constructor | now apply filter_sorted].
    + intros Hne. destruct kept as [|d kept]; [contradiction |].
      apply gap_plus_one_pos. specialize (Hin d (or_introl eq_refl)). lia.
Qed.

Lemma date_knot_positions_witness :
  exists k',
    _set_kernel_matrix sample_externals
      (model_of (with_level_knots Args.default (Some [2; 5; 12]) None None))
      (sample_df 10 1) (sample_meta 10 1) = Ok k' /\
    knots_tp_level k' = Some [Some (3 # 10)%Q; Some (3 # 5)%Q] /\
    strictly_increasing [Some (3 # 10)%Q; Some (3 # 5)%Q].
Proof.
  eexists. split; [vm_compute; reflexivity |]. split; [reflexivity |].
  match goal with
  | |- strictly_increasing ?tp =>
      destruct (date_knot_positions sample_externals
                  (model_of (with_level_knots Args.default (Some [2; 5; 12]) None None))
                  (sample_df 10 1) (sample_meta 10 1) [2; 5; 12] _
                  eq_refl ltac:(vm_compute; reflexivity))
        as (kept & freq & _ & _ & _ & _ & Hpos);
      destruct (Hpos 0 9 eq_refl eq_refl ltac:(simpl; lia) ltac:(simpl; lia)
                  tp eq_refl) as [_ Hinc]
  end.
  apply Hinc. repeat constructor.
Defined.

(** ** Fitting again on the same inputs *)

Lemma fourier_loop_dates (E : externals) (c : seasonal_config) (shift : Z) :
  (forall d s o p sh,
     date_values (make_fourier_series_df E d s o p sh) = date_values d) ->
  forall rest idx df df',
    fourier_loop E c shift idx rest df = Ok df' ->
    date_values df' = date_values df.
Proof.
  intros Hext. induction rest as [|s rest IH]; intros idx df df' H; simpl in H.
  - now injection H as <-.
  - apply bind_Ok in H. destruct H as [order [_ H]].
    apply IH in H. now rewrite H, Hext.
Qed.

Lemma make_seasonal_regressors_dates (E : externals) (c : seasonal_config)
    (df df' : dataframe) (shift : Z) :
  (forall d s o p sh,
     date_values (make_fourier_series_df E d s o p sh) = date_values d) ->
  _make_seasonal_regressors E c df shift = Ok df' ->
  date_values df' = date_values df.
Proof.
  intros Hext. unfold _make_seasonal_regressors.
  destruct (0 <? length (_seasonality c))%nat.
  - apply fourier_loop_dates, Hext.
  - now intros [= <-].
Qed.

Lemma arange_len_zero (start stop step : Z) :
  (0 < step /\ stop <= start) \/ (step < 0 /\ start <= stop) ->
  arange_len start stop step = 0%nat.
Proof.
  intros H. unfold arange_len.
  assert (ceil_div (stop - start) step <= 0); [| lia].
  destruct H as [[Hs Hle] | [Hs Hle]].
  - destruct (ceil_div_lt_pos (stop - start) step 0 Hs) as [H1 _].
    destruct (Z_lt_le_dec 0 (ceil_div (stop - start) step)) as [Hc|Hc]; [| exact Hc].
    apply H1 in Hc. lia.
  - destruct (ceil_div_lt_neg (stop - start) step 0 Hs) as [H1 _].
    destruct (Z_lt_le_dec 0 (ceil_div (stop - start) step)) as [Hc|Hc]; [| exact Hc].
    apply H1 in Hc. lia.
Qed.

(** Over a positive cutoff the knot indices are never negative. *)
Lemma set_knots_tp_nonneg (d cutoff : Z) (loc : string) (idx : list Z) :
  0 < cutoff ->
  _set_knots_tp d cutoff loc = Ok idx ->
  Forall (fun i => 0 <= i) idx.
Proof.
  intros Hc. unfold _set_knots_tp.
  destruct (String.eqb loc "mid_point").
  - unfold np_arange. destruct (Z.eqb_spec d 0) as [|Hd]; [discriminate |].
    intros [= <-]. fold (progression (round_half_even (d # 2)) d 0
                           (arange_len (round_half_even (d # 2)) cutoff d)).
    destruct (Z_lt_le_dec 0 d) as [Hpos|Hneg].
    + pose proof (mid_start_bounds d Hpos).
      apply Forall_forall. intros x Hx. apply in_progression in Hx.
      destruct Hx as [k [_ ->]]. nia.
    + rewrite arange_len_zero; [constructor |]. right. split; [lia |].
      pose proof (round_half_even_floor (d # 2)) as Hr.
      assert (Hf : Qfloor (d # 2) = d / 2) by reflexivity. rewrite Hf in Hr.
      pose proof (Z.div_mod d 2 ltac:(lia)).
      pose proof (Z.mod_pos_bound d 2 ltac:(lia)). lia.
  - destruct (String.eqb loc "end_point"); [| discriminate].
    unfold np_arange. destruct (Z.eqb_spec (- d) 0) as [|Hd]; [discriminate |].
    simpl. intros [= <-].
    fold (progression (cutoff - 1) (- d) 0 (arange_len (cutoff - 1) 0 (- d))).
    destruct (Z_lt_le_dec 0 d) as [Hpos|Hneg].
    + rewrite np_sort_descending by (apply progression_descending; lia).
      apply Forall_forall. intros x Hx. apply in_rev in Hx.
      apply in_progression in Hx. destruct Hx as [k [Hk ->]].
      apply arange_len_neg in Hk; lia.
    + rewrite arange_len_zero; [constructor |]. left. lia.
Qed.

Lemma nth_error_progression (t0 u : Z) (n k : nat) :
  (k < n)%nat -> nth_error (progression t0 u 0 n) k = Some (t0 + Z.of_nat k * u).
Proof.
  intros Hk. unfold progression.
  rewrite nth_error_map, nth_error_seq.
  destruct (Nat.ltb_spec k n); [reflexivity | lia].
Qed.

Lemma np_index_progression (t0 u : Z) (n : nat) (i : Z) :
  0 <= i < Z.of_nat n ->
  np_index (progression t0 u 0 n) i = Ok (t0 + i * u).
Proof.
  intros Hi. unfold np_index. rewrite progression_length.
  destruct (Z.leb_spec 0 i); [| lia].
  destruct (Z.ltb_spec i (Z.of_nat n)); [| lia]. simpl.
  unfold py_index. rewrite nth_error_progression by lia.
  now rewrite Z2Nat.id by lia.
Qed.

Lemma np_index_progression_last (t0 u : Z) (n : nat) :
  (0 < n)%nat ->
  np_index (progression t0 u 0 n) (-1) = Ok (t0 + (Z.of_nat n - 1) * u).
Proof.
  intros Hn. unfold np_index. rewrite progression_length. simpl.
  destruct (Z.leb_spec (- Z.of_nat n) (-1)); [| lia]. simpl.
  unfold py_index. rewrite nth_error_progression by lia.
  now rewrite Z2Nat.id by lia.
Qed.

Lemma np_take_progression (t0 u : Z) (n : nat) (idx dates : list Z) :
  Forall (fun i => 0 <= i) idx ->
  np_take (progression t0 u 0 n) idx = Ok dates ->
  dates = map (fun i => t0 + i * u) idx /\
  Forall (fun i => 0 <= i < Z.of_nat n) idx.
Proof.
  intros Hnn. revert dates.
  induction Hnn as [|i idx Hi Hidx IH]; intros dates H; simpl in H.
  - injection H as <-. split; constructor.
  - apply bind_Ok in H. destruct H as [x [Hx H]].
    apply bind_Ok in H. destruct H as [xs [Hxs H]].
    injection H as <-. destruct (IH _ Hxs) as [-> Hall].
    assert (Hlt : i < Z.of_nat n).
    { unfold np_index in Hx. rewrite progression_length in Hx.
      destruct (Z.ltb_spec i (Z.of_nat n)); [assumption |].
      rewrite andb_false_r in Hx.
      destruct (Z.ltb_spec i 0); [lia |].
      rewrite andb_false_r in Hx. discriminate. }
    rewrite np_index_progression in Hx by lia. injection Hx as <-.
    split; [reflexivity | constructor; [lia | assumption]].
Qed.

Lemma np_div_Qeq (a a' b b' : Q) :
  (a == a')%Q -> (b == b')%Q -> np_div a b = np_div a' b'.
Proof.
  intros Ha Hb. unfold np_div.
  assert (Hz : Qeq_bool b 0 = Qeq_bool b' 0).
  { destruct (Qeq_bool b 0) eqn:E1, (Qeq_bool b' 0) eqn:E2; try reflexivity.
    - apply Qeq_bool_iff in E1. apply Qeq_bool_neq in E2.
      exfalso. apply E2. now rewrite <- Hb.
    - apply Qeq_bool_iff in E2. apply Qeq_bool_neq in E1.
      exfalso. apply E1. now rewrite Hb. }
  rewrite Hz. destruct (Qeq_bool b' 0); [reflexivity |].
  f_equal. apply Qred_complete. now rewrite Ha, Hb.
Qed.

(** On a regular calendar the date rule gives the index rule's positions. *)
Lemma regular_positions (t0 : Z) (u : positive) (n : Z) (idx : list Z) :
  knots_tp_of_dates t0 (t0 + (n - 1) * Zpos u) u
    (map (fun i => t0 + i * Zpos u) idx)
  = knots_tp_of_idx idx n.
Proof.
  unfold knots_tp_of_dates, knots_tp_of_idx. rewrite map_map.
  apply map_ext. intros i. apply np_div_Qeq.
  - rewrite gap_plus_one. unfold Qeq. cbn [Qnum Qden inject_Z]. ring.
  - rewrite gap_plus_one. unfold Qeq. cbn [Qnum Qden inject_Z]. ring.
Qed.

Lemma filter_all {A : Type} (f : A -> bool) (l : list A) :
  Forall (fun x => f x = true) l -> filter f l = l.
Proof.
  induction 1 as [|x l Hx Hl IH]; simpl; [reflexivity |].
  now rewrite Hx, IH.
Qed.

Lemma filter_idem {A : Type} (f : A -> bool) (l : list A) :
  filter f (filter f l) = filter f l.
Proof.
  apply filter_all. apply Forall_forall. intros x Hx.
  now apply filter_In in Hx.
Qed.

Lemma within_training_period_filter (dates values : list Z) (f l : Z) :
  np_index values 0 = Ok f ->
  np_index values (-1) = Ok l ->
  within_training_period dates values
  = Ok (filter (fun x => (x <=? l) && (x >=? f)) dates).
Proof.
  intros Hf Hl. unfold within_training_period.
  destruct dates as [|d dates]; [reflexivity |].
  now rewrite Hl, Hf.
Qed.

(** Dates that passed the period filter pass it again. *)
Lemma within_training_period_idem (dates values kept : list Z) :
  within_training_period dates values = Ok kept ->
  within_training_period kept values = Ok kept.
Proof.
  intros H. apply within_training_period_inv in H.
  destruct H as [[_ ->] | (f & l & Hf & Hl & ->)]; [reflexivity |].
  rewrite (within_training_period_filter _ _ f l Hf Hl).
  now rewrite filter_idem.
Qed.

Lemma within_training_period_regular (t0 : Z) (u : positive) (n : nat)
    (idx : list Z) :
  Forall (fun i => 0 <= i < Z.of_nat n) idx ->
  within_training_period (map (fun i => t0 + i * Zpos u) idx)
                         (progression t0 (Zpos u) 0 n)
  = Ok (map (fun i => t0 + i * Zpos u) idx).
Proof.
  intros Hall.
  destruct idx as [|i idx]; [reflexivity |].
  assert (Hn : (0 < n)%nat) by (inversion Hall; lia).
  rewrite (within_training_period_filter _ _ t0 (t0 + (Z.of_nat n - 1) * Zpos u)).
  - f_equal. apply filter_all. apply Forall_forall. intros x Hx.
    apply in_map_iff in Hx. destruct Hx as [j [<- Hj]].
    rewrite Forall_forall in Hall. specialize (Hall j Hj).
    apply andb_true_iff. split; [apply Z.leb_le | apply Z.geb_le]; nia.
  - rewrite np_index_progression by lia. f_equal. lia.
  - now apply np_index_progression_last.
Qed.

(** The coefficient half does not depend on what the previous call left. *)
Lemma coefficient_knots_refit (E : externals) (m m1 : KTRLiteModel)
    (df : dataframe) (meta : training_meta) (tp : list npfloat)
    ic tc dc kc nc :
  args m1 = args m -> attrs m1 = attrs m ->
  _knots_idx_coef (kernels m1) = ic ->
  knots_tp_coefficients (kernels m1) = tc ->
  _coef_knot_dates (kernels m1) = dc ->
  coefficient_knots E m df meta tp = Ok (ic, tc, dc, kc, nc) ->
  coefficient_knots E m1 df meta tp = Ok (ic, tc, dc, kc, nc).
Proof.
  intros Ha Hs Hi Ht Hd. unfold coefficient_knots. rewrite Ha, Hs.
  destruct (np_zeros (num_of_observations meta) 0) as [z|e]; simpl; [| auto].
  destruct (0 <? num_of_regressors (attrs m))%nat; [auto |].
  intros [= _ _ _ <- <-]. now rewrite Hi, Ht, Hd.
Qed.

Lemma set_dynamic_attributes_inv (E : externals) (m m' : KTRLiteModel)
    (df : dataframe) (meta : training_meta) :
  set_dynamic_attributes E m df meta = Ok m' ->
  exists v df' r k,
    _set_validate_ktr_params (config m) meta = Ok v /\
    _make_seasonal_regressors E (config m) df 0 = Ok df' /\
    _set_regressor_matrix (attrs m) df' meta = Ok r /\
    _set_kernel_matrix E m df' meta = Ok k /\
    m' = {| args := args m; config := config m; attrs := attrs m;
            validation := v; regressor_matrix := Some r; kernels := k |}.
Proof.
  unfold set_dynamic_attributes. intros H.
  apply bind_Ok in H. destruct H as [v [Hv H]].
  apply bind_Ok in H. destruct H as [df' [Hdf H]].
  apply bind_Ok in H. destruct H as [r [Hr H]].
  apply bind_Ok in H. destruct H as [k [Hk H]].
  injection H as <-. exists v, df', r, k. auto.
Qed.

(** C1.  The second fit call on the same inputs does not place the level
    knots by the index rule: it finds the knot dates the first call stored
    and maps them by the date rule.  On ten business days with a daily
    date frequency and no level knot dates supplied, the sixth level knot
    is at 6/10 after the first call and at 8/12 after the second, and the
    two published states differ. *)
Theorem refit_changes_level_knots :
  let m := model_of (with_level_knots Args.default None (Some 1%positive) None) in
  exists m1 m2,
    set_dynamic_attributes sample_externals m business_df business_meta = Ok m1 /\
    set_dynamic_attributes sample_externals m1 business_df business_meta = Ok m2 /\
    Args.level_knot_dates (args m) = None /\
    _level_knot_dates (kernels m) = None /\
    _level_knot_dates (kernels m1) = Some [0; 1; 2; 3; 4; 7; 8; 9; 10; 11] /\
    _knots_idx_level (kernels m1) = Some [0; 1; 2; 3; 4; 5; 6; 7; 8; 9] /\
    option_map (fun tp => nth_error tp 5) (knots_tp_level (kernels m1))
    = Some (Some (Some (3 # 5)%Q)) /\
    option_map (fun tp => nth_error tp 5) (knots_tp_level (kernels m2))
    = Some (Some (Some (2 # 3)%Q)) /\
    published_state m2 <> published_state m1.
Proof.
  intros m. eexists. eexists.
  split; [vm_compute; reflexivity |].
  split; [vm_compute; reflexivity |].
  repeat (split; [reflexivity |]).
  intros H. apply (f_equal pub_knots_tp_level) in H.
  vm_compute in H. discriminate.
Qed.

(** X25.  What a second fit call on the same inputs does keep.  The validator
    outputs, the regressor matrix, the coefficient kernel and the
    coefficient knot count are recomputed to the same values; the level
    knots of the second call come from the stored knot dates by the date
    rule.  The published state is the same after both calls when knot dates
    were already set before the first call, and otherwise when the dates of
    the table are spaced by one unit of the date frequency, the training
    window runs from the first to the last date and the basis generator
    keeps the date column. *)
Theorem refit_on_regular_calendar (E : externals) (m m1 m2 : KTRLiteModel)
    (df : dataframe) (meta : training_meta) :
  set_dynamic_attributes E m df meta = Ok m1 ->
  set_dynamic_attributes E m1 df meta = Ok m2 ->
  validation m2 = validation m1 /\
  regressor_matrix m2 = regressor_matrix m1 /\
  kernel_coefficients (kernels m2) = kernel_coefficients (kernels m1) /\
  num_knots_coefficients (kernels m2) = num_knots_coefficients (kernels m1) /\
  (exists df' cached kept freq,
     _make_seasonal_regressors E (config m) df 0 = Ok df' /\
     _level_knot_dates (kernels m1) = Some cached /\
     within_training_period cached (date_values df') = Ok kept /\
     knots_tp_level (kernels m2)
     = Some (knots_tp_of_dates (training_start meta) (training_end meta) freq kept)) /\
  ((exists knot_dates, _level_knot_dates (kernels m) = Some knot_dates) ->
   published_state m2 = published_state m1) /\
  (forall (t0 : Z) (u : positive),
     _level_knot_dates (kernels m) = None ->
     (forall d s o p sh,
        date_values (make_fourier_series_df E d s o p sh) = date_values d) ->
     0 < num_of_observations meta ->
     date_values df
     = progression t0 (Zpos u) 0 (Z.to_nat (num_of_observations meta)) ->
     training_start meta = t0 ->
     training_end meta = t0 + (num_of_observations meta - 1) * Zpos u ->
     (date_freq (kernels m) = Some u
      \/ (date_freq (kernels m) = None /\ infer_freq_unit E (date_values df) = Ok u)) ->
     published_state m2 = published_state m1).
Proof.
  intros H1 H2.
  apply set_dynamic_attributes_inv in H1.
  destruct H1 as (v & df' & r & k1 & Hv & Hdf & Hr & Hk1 & ->).
  apply set_dynamic_attributes_inv in H2. simpl in H2.
  destruct H2 as (v2 & df2 & r2 & k2 & Hv2 & Hdf2 & Hr2 & Hk2 & ->).
  rewrite Hv in Hv2. injection Hv2 as <-.
  rewrite Hdf in Hdf2. injection Hdf2 as <-.
  rewrite Hr in Hr2. injection Hr2 as <-.
  apply set_kernel_matrix_inv in Hk1.
  destruct Hk1 as (tp & il & tl & dl & fl & ic & tc & dc & kc & nc
                   & Htp & Hlev & Hcoef & ->).
  apply set_kernel_matrix_inv in Hk2.
  destruct Hk2 as (tp2 & il2 & tl2 & dl2 & fl2 & ic2 & tc2 & dc2 & kc2 & nc2
                   & Htp2 & Hlev2 & Hcoef2 & ->).
  rewrite Htp in Htp2. injection Htp2 as <-.
  (* the coefficient half *)
  match type of Hcoef2 with
  | coefficient_knots _ ?m1 _ _ _ = _ =>
      pose proof (coefficient_knots_refit E m m1 df' meta tp ic tc dc kc nc
                    eq_refl eq_refl eq_refl eq_refl eq_refl Hcoef) as Hcoef'
  end.
  rewrite Hcoef' in Hcoef2. injection Hcoef2 as <- <- <- <- <-.
  (* the level half of the second call runs on the stored dates *)
  match type of Hlev2 with
  | level_knots _ ?m1 _ _ = _ =>
      destruct (level_knots_date_branch E m1 df' meta dl _ eq_refl Hlev2)
        as (kept & freq & Hkept & Hfreq & Heq)
  end.
  simpl in Hfreq, Heq. injection Heq as -> -> -> ->.
  simpl.
  split; [reflexivity |]. split; [reflexivity |].
  split; [reflexivity |]. split; [reflexivity |].
  split.
  { exists df', dl, kept, freq. auto. }
  split.
  - (* knot dates were set before the first call *)
    intros [knot_dates Hdates].
    destruct (level_knots_date_branch E m df' meta knot_dates _ Hdates Hlev)
      as (kept1 & freq1 & Hkept1 & _ & Heq).
    injection Heq as -> -> -> ->.
    simpl in Hfreq. injection Hfreq as <-.
    apply within_training_period_idem in Hkept1.
    rewrite Hkept1 in Hkept. injection Hkept as <-.
    reflexivity.
  - (* the index rule on a regular calendar *)
    intros t0 u Hnone Hext Hn Hreg Hstart Hend Hu.
    destruct (level_knots_index_branch E m df' meta _ Hnone Hlev)
      as (d & idx & dates & _ & Hidx & Htake & Heq).
    injection Heq as -> -> -> ->.
    pose proof (make_seasonal_regressors_dates E _ df df' 0 Hext Hdf) as Hd'.
    rewrite Hd', Hreg in Htake, Hkept.
    pose proof (set_knots_tp_nonneg _ _ _ _ Hn Hidx) as Hnn.
    destruct (np_take_progression _ _ _ _ _ Hnn Htake) as [-> Hrange].
    rewrite within_training_period_regular in Hkept by exact Hrange.
    injection Hkept as <-.
    assert (Hf : freq = u).
    { rewrite Hd' in Hfreq.
      destruct Hu as [Hu | [Hu Hinf]]; rewrite Hu in Hfreq.
      - now injection Hfreq as <-.
      - rewrite Hinf in Hfreq. now injection Hfreq as <-. }
    subst freq. rewrite Hstart, Hend, regular_positions.
    reflexivity.
Qed.

Example refit_on_daily_calendar :
  let m := model_of weekly_args in
  let m1 := get empty_model
              (set_dynamic_attributes sample_externals m
                 (sample_df 30 1) (sample_meta 30 1)) in
  let m2 := get empty_model
              (set_dynamic_attributes sample_externals m1
                 (sample_df 30 1) (sample_meta 30 1)) in
  knots_tp_level (kernels m1) <> None /\
  published_state m2 = published_state m1.
Proof.
  intros m m1 m2. split; [vm_compute; discriminate |].
  destruct (refit_on_regular_calendar sample_externals m m1 m2
              (sample_df 30 1) (sample_meta 30 1)
              ltac:(vm_compute; reflexivity) ltac:(vm_compute; reflexivity))
    as (_ & _ & _ & _ & _ & _ & Hreg).
  apply (Hreg 0 1%positive).
  - reflexivity.
  - intros d s o p sh. reflexivity.
  - simpl. lia.
  - vm_compute. reflexivity.
  - reflexivity.
  - reflexivity.
  - right. split; reflexivity.
Defined.

(** * Further properties of the code *)

(** ** The regressor attributes in closed form *)

Lemma skipn_nth_error {A : Type} (l : list A) (i : nat) (x : A) :
  nth_error l i = Some x -> skipn i l = x :: skipn (S i) l.
Proof.
  revert i. induction l as [|y l IH]; intros [|i] H; simpl in *;
    try discriminate.
  - now injection H as <-.
  - now apply IH.
Qed.

Lemma fs_cols_of_length (s : Q) (order : Z) :
  length (fs_cols_of s order) = (2 * Z.to_nat order)%nat.
Proof.
  unfold fs_cols_of.
  assert (H : forall l : list Z,
             length (flat_map (fun i => [seas_fs_cos s i; seas_fs_sin s i]) l)
             = (2 * length l)%nat).
  { induction l as [|k l IH]; simpl; [reflexivity | rewrite IH; lia]. }
  rewrite H. unfold range1. now rewrite length_map, length_seq.
Qed.

(** What the loop appends to its four lists, row by row. *)
Lemma seasonality_loop_closed (c : seasonal_config) (rest : list Q) :
  forall idx acc a,
    seasonality_loop c idx rest acc = Ok a ->
    let rows :=
      combine rest
        (combine (skipn idx (_seasonality_fs_order c))
           (combine (skipn idx (_seasonal_initial_knot_scale c))
                    (skipn idx (_seasonal_knot_scale c)))) in
    length rows = length rest /\
    regressor_col_gp a = regressor_col_gp acc ++ map row_columns rows /\
    regressor_col a = regressor_col acc ++ flat_map row_columns rows /\
    coefficients_initial_knot_scale a
    = coefficients_initial_knot_scale acc ++ flat_map row_initial_scales rows /\
    coefficients_knot_scale a
    = coefficients_knot_scale acc ++ flat_map row_knot_scales rows.
Proof.
  induction rest as [|s rest IH]; intros idx acc a H; simpl in H.
  - injection H as <-. simpl. rewrite !app_nil_r. auto.
  - unfold py_index in H.
    destruct (nth_error (_seasonality_fs_order c) idx) as [order|] eqn:E1;
      [| discriminate].
    destruct (nth_error (_seasonal_initial_knot_scale c) idx) as [x|] eqn:E2;
      [| discriminate].
    destruct (nth_error (_seasonal_knot_scale c) idx) as [y|] eqn:E3;
      [| discriminate].
    simpl bind in H. apply IH in H. cbv zeta in H.
    destruct H as (Hlen & Hgp & Hcol & Hinit & Hknot).
    rewrite (skipn_nth_error _ _ _ E1), (skipn_nth_error _ _ _ E2),
      (skipn_nth_error _ _ _ E3).
    cbn [combine map flat_map length].
    cbn [regressor_col_gp regressor_col coefficients_initial_knot_scale
         coefficients_knot_scale] in Hgp, Hcol, Hinit, Hknot.
    rewrite Hlen, Hgp, Hcol, Hinit, Hknot.
    unfold row_initial_scales at 2, row_knot_scales at 2.
    cbn [fst snd]. rewrite <- !app_assoc.
    repeat split.
Qed.

Lemma set_seasonality_attributes_closed (c : seasonal_config) (a : seasonal_attrs) :
  _set_seasonality_attributes c = Ok a ->
  length (attribute_rows c) = length (_seasonality c) /\
  regressor_col_gp a = map row_columns (attribute_rows c) /\
  regressor_col a = flat_map row_columns (attribute_rows c) /\
  coefficients_initial_knot_scale a
  = flat_map row_initial_scales (attribute_rows c) /\
  coefficients_knot_scale a = flat_map row_knot_scales (attribute_rows c) /\
  num_of_regressors a = length (regressor_col a).
Proof.
  unfold _set_seasonality_attributes. intros H.
  apply bind_Ok in H. destruct H as [a0 [Hloop H]].
  injection H as <-. simpl.
  apply seasonality_loop_closed in Hloop. cbv zeta in Hloop. simpl in Hloop.
  destruct Hloop as (Hlen & Hgp & Hcol & Hinit & Hknot).
  unfold attribute_rows. auto 10.
Qed.

Lemma flat_map_length_sum {A B : Type} (f : A -> list B) (g : A -> nat)
    (l : list A) :
  (forall x, length (f x) = g x) ->
  length (flat_map f l) = list_sum (map g l).
Proof.
  intros Hf. induction l as [|x l IH]; simpl; [reflexivity |].
  now rewrite length_app, Hf, IH.
Qed.

Lemma py_repeat_length {A : Type} (x : A) (n : Z) :
  length (py_repeat x n) = Z.to_nat n.
Proof. unfold py_repeat. apply repeat_length. Qed.

(** X1.  In a constructed model the two per-regressor scale lists have one
    entry per regressor column, and the number of regressors is the sum of
    [2 * order] over the seasonalities (an order that is not positive
    gives no column). *)
Theorem regressor_attributes_aligned (a : Args.t) (m : KTRLiteModel) :
  __init__ a = Ok m ->
  num_of_regressors (attrs m) = length (regressor_col (attrs m)) /\
  length (coefficients_initial_knot_scale (attrs m)) = num_of_regressors (attrs m) /\
  length (coefficients_knot_scale (attrs m)) = num_of_regressors (attrs m) /\
  num_of_regressors (attrs m)
  = list_sum (map (fun o => (2 * Z.to_nat o)%nat) (_seasonality_fs_order (config m))).
Proof.
  intros Hinit.
  destruct (init_inv a m Hinit) as (Hc & Hattrs & _).
  apply set_default_args_Ok in Hc. destruct Hc as (_ & _ & _ & Hlen & _).
  destruct (set_seasonality_attributes_closed _ _ Hattrs)
    as (Hrows & _ & Hcol & Hi & Hk & Hnum).
  set (g := fun r : Q * (Z * (Q * Q)) => (2 * Z.to_nat (fst (snd r)))%nat).
  assert (Hc' : length (regressor_col (attrs m))
                = list_sum (map g (attribute_rows (config m)))).
  { rewrite Hcol. apply flat_map_length_sum. intros r. apply fs_cols_of_length. }
  assert (Hi' : length (coefficients_initial_knot_scale (attrs m))
                = list_sum (map g (attribute_rows (config m)))).
  { rewrite Hi. apply flat_map_length_sum. intros r.
    unfold row_initial_scales, g. rewrite length_app, !py_repeat_length. lia. }
  assert (Hk' : length (coefficients_knot_scale (attrs m))
                = list_sum (map g (attribute_rows (config m)))).
  { rewrite Hk. apply flat_map_length_sum. intros r.
    unfold row_knot_scales, g. rewrite length_app, !py_repeat_length. lia. }
  repeat split; try congruence.
  rewrite Hnum, Hc'. f_equal.
  (* the orders of the rows are the order list *)
  unfold attribute_rows in *.
  remember (combine (_seasonal_initial_knot_scale (config m))
                    (_seasonal_knot_scale (config m))) as scales.
  clear Heqscales Hc' Hi' Hk' Hcol Hi Hk Hnum Hattrs Hinit.
  revert Hrows Hlen.
  generalize (_seasonality (config m)) (_seasonality_fs_order (config m)) scales.
  induction l as [|s l IH]; intros [|o orders] sc Hrows Hlen;
    simpl in *; try discriminate; try reflexivity.
  destruct sc as [|x sc]; simpl in *; [discriminate |].
  unfold g at 1. simpl. f_equal. apply IH; lia.
Qed.

Lemma regressor_attributes_aligned_witness :
  num_of_regressors (attrs (model_of two_seasons_args)) = 10%nat /\
  length (coefficients_initial_knot_scale (attrs (model_of two_seasons_args)))
  = 10%nat.
Proof.
  destruct (regressor_attributes_aligned two_seasons_args
              (model_of two_seasons_args) eq_refl) as (_ & Hi & _ & Hn).
  split; [exact Hn | now rewrite Hi, Hn].
Defined.

Lemma rows_columns_by_order (f : Q -> Z -> list colname) :
  forall (seas : list Q) (orders : list Z) (scales : list (Q * Q)),
    length (combine seas (combine orders scales)) = length seas ->
    map (fun r : Q * (Z * (Q * Q)) => f (fst r) (fst (snd r)))
        (combine seas (combine orders scales))
    = map (fun so => f (fst so) (snd so)) (combine seas orders).
Proof.
  induction seas as [|s seas IH]; intros [|o orders] [|x scales] H;
    simpl in *; try discriminate; try reflexivity.
  f_equal. apply IH. lia.
Qed.

(** X2.  In a constructed model there is one column group per seasonality,
    the group of a seasonality with order [o] is its [2 * o] cosine and sine
    columns, and the flat column list is the groups one after the other. *)
Theorem regressor_groups (a : Args.t) (m : KTRLiteModel) :
  __init__ a = Ok m ->
  length (regressor_col_gp (attrs m)) = length (_seasonality (config m)) /\
  regressor_col_gp (attrs m)
  = map (fun so => fs_cols_of (fst so) (snd so))
        (combine (_seasonality (config m)) (_seasonality_fs_order (config m))) /\
  regressor_col (attrs m) = concat (regressor_col_gp (attrs m)).
Proof.
  intros Hinit.
  destruct (init_inv a m Hinit) as (_ & Hattrs & _).
  destruct (set_seasonality_attributes_closed _ _ Hattrs)
    as (Hrows & Hgp & Hcol & _).
  split; [| split].
  - now rewrite Hgp, length_map.
  - rewrite Hgp. unfold attribute_rows in *.
    apply (rows_columns_by_order fs_cols_of). exact Hrows.
  - rewrite Hcol, Hgp. apply flat_map_concat_map.
Qed.

Lemma regressor_groups_witness :
  regressor_col_gp (attrs (model_of two_seasons_args))
  = [fs_cols_of 7 2; fs_cols_of 12 3] /\
  length (regressor_col_gp (attrs (model_of two_seasons_args))) = 2%nat.
Proof.
  destruct (regressor_groups two_seasons_args (model_of two_seasons_args) eq_refl)
    as (Hlen & Hgp & _).
  split; [exact Hgp | exact Hlen].
Defined.

(** ** Prior-scale lists longer than the seasonality list *)

Lemma combine_ignores_tail (seas : list Q) :
  forall (orders : list Z) (l extra knots : list Q),
    length l = length seas ->
    combine seas (combine orders (combine (l ++ extra) knots))
    = combine seas (combine orders (combine l knots)).
Proof.
  induction seas as [|s seas IH]; intros [|o orders] [|x l] extra [|k knots] H;
    simpl in *; try discriminate; try reflexivity.
  f_equal. apply IH. lia.
Qed.

Lemma seasonal_attrs_eq (a b : seasonal_attrs) :
  regressor_col_gp a = regressor_col_gp b ->
  regressor_col a = regressor_col b ->
  coefficients_initial_knot_scale a = coefficients_initial_knot_scale b ->
  coefficients_knot_scale a = coefficients_knot_scale b ->
  num_of_regressors a = num_of_regressors b ->
  a = b.
Proof.
  destruct a, b. simpl. intros -> -> -> -> ->. reflexivity.
Qed.

(** X3.  When construction goes through with a list of initial-knot
    scales that has one entry per seasonality, it also goes through with
    any further entries appended to that list: the longer list is stored
    as given, the entries past the seasonality count are never read, and
    the regressor attributes are the same. *)
Theorem overlong_scale_list_ignored (a : Args.t) (m : KTRLiteModel)
    (l extra : list Q) :
  Args.seasonal_initial_knot_scale a = ArgList l ->
  __init__ a = Ok m ->
  length l = length (_seasonality (config m)) ->
  exists m',
    __init__ (with_scales a (ArgList (l ++ extra)) (Args.seasonal_knot_scale a))
    = Ok m' /\
    _seasonal_initial_knot_scale (config m') = l ++ extra /\
    attrs m' = attrs m.
Proof.
  intros Hscale Hinit Hl.
  destruct (init_inv a m Hinit) as (Hc & Hattrs & _).
  destruct (set_default_args_Ok _ _ Hc)
    as (order0 & Hseas & Horder & Hlen & Hchk & Hi & Hk).
  rewrite Hscale in Hi. simpl in Hi. injection Hi as Hi.
  destruct (set_seasonality_attributes_closed _ _ Hattrs)
    as (Hrows & Hgp & Hcol & Hin & Hkn & Hnum).
  set (c' := {| _seasonality := _seasonality (config m);
                _seasonality_fs_order := _seasonality_fs_order (config m);
                _seasonal_initial_knot_scale := l ++ extra;
                _seasonal_knot_scale := _seasonal_knot_scale (config m) |}).
  assert (Hc' : _set_default_args
                  (with_scales a (ArgList (l ++ extra)) (Args.seasonal_knot_scale a))
                = Ok c').
  { unfold _set_default_args.
    change (default_seasonality
              (with_scales a (ArgList (l ++ extra)) (Args.seasonal_knot_scale a)))
      with (default_seasonality a).
    rewrite Hseas, Horder. simpl py_len. simpl bind.
    rewrite Hlen, Nat.eqb_refl. simpl negb. cbv iota.
    rewrite Hchk. simpl. rewrite Hk. reflexivity. }
  assert (Hrows' : attribute_rows c' = attribute_rows (config m)).
  { unfold attribute_rows, c'. simpl. rewrite <- Hi.
    now apply combine_ignores_tail. }
  assert (Hknots : (length (_seasonality (config m))
                    <= length (_seasonal_knot_scale (config m)))%nat).
  { unfold attribute_rows in Hrows. rewrite !length_combine in Hrows. lia. }
  destruct (set_seasonality_attributes_total c') as [s' Hs'];
    unfold c'; simpl; rewrite ?length_app; try lia.
  destruct (set_seasonality_attributes_closed _ _ Hs')
    as (_ & Hgp' & Hcol' & Hin' & Hkn' & Hnum').
  fold c' in Hs'. rewrite Hrows' in Hgp', Hcol', Hin', Hkn'.
  assert (Heq : s' = attrs m).
  { apply seasonal_attrs_eq; congruence. }
  unfold __init__. rewrite Hc'. simpl bind. rewrite Hs'. simpl.
  eexists. split; [reflexivity |]. split; [reflexivity | exact Heq].
Qed.

Lemma overlong_scale_list_ignored_witness :
  exists m',
    __init__ (with_scales two_seasons_args (ArgList [2%Q; 4%Q; 5%Q; 9%Q])
                          (ArgScalar (1 # 10)%Q)) = Ok m' /\
    _seasonal_initial_knot_scale (config m') = [2%Q; 4%Q; 5%Q; 9%Q] /\
    attrs m'
    = attrs (model_of (with_scales two_seasons_args (ArgList [2%Q; 4%Q])
                                   (ArgScalar (1 # 10)%Q))).
Proof.
  apply (overlong_scale_list_ignored
           (with_scales two_seasons_args (ArgList [2%Q; 4%Q]) (ArgScalar (1 # 10)%Q))
           (model_of (with_scales two_seasons_args (ArgList [2%Q; 4%Q])
                                  (ArgScalar (1 # 10)%Q)))
           [2%Q; 4%Q] [5%Q; 9%Q]); reflexivity.
Defined.

(** ** The valid-response mask *)

Lemma np_where_spec (mask : list bool) :
  forall k,
    StronglySorted lt (np_where k mask) /\
    (forall i, In i (np_where k mask) <->
               (k <= i)%nat /\ nth_error mask (i - k) = Some true).
Proof.
  induction mask as [|b mask IH]; intros k; simpl.
  - split; [constructor |]. intros i. split; [contradiction |].
    intros [_ H]. destruct (i - k)%nat; discriminate.
  - destruct (IH (S k)) as [Hs Hin].
    assert (Htail : forall i, In i (np_where (S k) mask) ->
                      (k <= i)%nat /\ nth_error (b :: mask) (i - k) = Some true).
    { intros i Hi. apply Hin in Hi. destruct Hi as [Hle Hn]. split; [lia |].
      replace (i - k)%nat with (S (i - S k)) by lia. exact Hn. }
    assert (Hback : forall i, (k < i)%nat ->
                      nth_error (b :: mask) (i - k) = Some true ->
                      In i (np_where (S k) mask)).
    { intros i Hlt Hn. apply Hin. split; [lia |].
      replace (i - k)%nat with (S (i - S k)) in Hn by lia. exact Hn. }
    destruct b.
    + split.
      * constructor; [exact Hs |]. apply Forall_forall. intros i Hi.
        apply Hin in Hi. lia.
      * intros i. split.
        -- intros [<- | Hi]; [| now apply Htail].
           split; [lia |]. now rewrite Nat.sub_diag.
        -- intros [Hle Hn]. destruct (Nat.eq_dec k i) as [->|Hne];
             [now left | right]. apply Hback; [lia | exact Hn].
    + split; [exact Hs |]. intros i. split; [apply Htail |].
      intros [Hle Hn]. destruct (Nat.eq_dec k i) as [->|Hne].
      * rewrite Nat.sub_diag in Hn. discriminate.
      * apply Hback; [lia | exact Hn].
Qed.

Lemma np_where_length (l : list pyfloat) :
  forall k, length (np_where k (map is_valid l)) = count_valid l.
Proof.
  unfold count_valid. induction l as [|x l IH]; intros k; simpl;
    [reflexivity |].
  destruct (is_valid x); simpl; now rewrite IH.
Qed.

(** X4.  After a validation that does not raise, the mask has one entry per
    response value, the valid indices are listed in increasing order and
    are exactly the positions of the values that are not [nan] (an
    infinite value counts as valid), and the valid count is the number of
    such values. *)
Theorem valid_response_index (c : seasonal_config) (meta : training_meta)
    (v : validation_state) :
  _set_validate_ktr_params c meta = Ok v ->
  exists mask which,
    is_valid_response v = Some mask /\
    which_valid_response v = Some which /\
    length mask = length (response meta) /\
    StronglySorted lt which /\
    (forall i, In i which <->
               exists x, nth_error (response meta) i = Some x /\ x <> NaN) /\
    num_of_valid_response v = length which /\
    num_of_valid_response v = count_valid (response meta).
Proof.
  unfold _set_validate_ktr_params. intros H.
  apply bind_Ok in H. destruct H as [[] [_ H]]. injection H as <-. simpl.
  exists (map is_valid (response meta)),
         (np_where 0 (map is_valid (response meta))).
  destruct (np_where_spec (map is_valid (response meta)) 0%nat) as [Hs Hin].
  repeat split; auto using length_map, np_where_length.
  - intros Hi. apply Hin in Hi. destruct Hi as [_ Hn].
    rewrite Nat.sub_0_r, nth_error_map in Hn.
    destruct (nth_error (response meta) i) as [x|]; try discriminate.
    exists x. split; [reflexivity |]. intros ->. discriminate.
  - intros (x & Hx & Hnan). apply Hin. split; [lia |].
    rewrite Nat.sub_0_r, nth_error_map, Hx. simpl.
    destruct x; try reflexivity. contradiction.
Qed.

Lemma valid_response_index_witness :
  exists v,
    _set_validate_ktr_params (config (model_of Args.default))
      {| response := [Fin 1; NaN; PosInf; NaN; Fin 3];
         num_of_observations := 5;
         training_start := 0;
         training_end := 4 |} = Ok v /\
    which_valid_response v = Some [0%nat; 2%nat; 4%nat] /\
    num_of_valid_response v = 3%nat.
Proof.
  eexists. split; [reflexivity |].
  match goal with
  | |- which_valid_response ?v = _ /\ _ =>
      destruct (valid_response_index (config (model_of Args.default))
                  {| response := [Fin 1; NaN; PosInf; NaN; Fin 3];
                     num_of_observations := 5;
                     training_start := 0;
                     training_end := 4 |} v eq_refl)
        as (mask & which & _ & Hw & _ & _ & _ & _ & Hn)
  end.
  split; [reflexivity | exact Hn].
Defined.

(** ** Knot placement at the edges *)

Lemma set_knots_tp_mid (d cutoff : Z) :
  d <> 0 ->
  _set_knots_tp d cutoff "mid_point"
  = Ok (progression (round_half_even (d # 2)) d 0
          (arange_len (round_half_even (d # 2)) cutoff d)).
Proof. intros Hd. unfold _set_knots_tp. simpl. now apply np_arange_eq. Qed.

Lemma set_knots_tp_end (d cutoff : Z) :
  0 < d ->
  _set_knots_tp d cutoff "end_point"
  = Ok (rev (progression (cutoff - 1) (- d) 0 (arange_len (cutoff - 1) 0 (- d)))).
Proof.
  intros Hd. unfold _set_knots_tp. simpl.
  rewrite np_arange_eq by lia. simpl.
  rewrite np_sort_descending; [reflexivity |].
  apply progression_descending. lia.
Qed.

Lemma set_knots_tp_location (d cutoff : Z) (loc : string) (idx : list Z) :
  _set_knots_tp d cutoff loc = Ok idx ->
  loc = "mid_point"%string \/ loc = "end_point"%string.
Proof.
  unfold _set_knots_tp.
  destruct (String.eqb_spec loc "mid_point"); [now left |].
  destruct (String.eqb_spec loc "end_point"); [now right | discriminate].
Qed.

Lemma round_half_even_nonpos (d : Z) : d < 0 -> round_half_even (d # 2) <= 0.
Proof.
  intros Hd. pose proof (round_half_even_floor (d # 2)) as Hr.
  assert (Hf : Qfloor (d # 2) = d / 2) by reflexivity. rewrite Hf in Hr.
  pose proof (Z.div_mod d 2 ltac:(lia)).
  pose proof (Z.mod_pos_bound d 2 ltac:(lia)). lia.
Qed.

(** X6.  A knot distance of zero makes both placements raise
    [ZeroDivisionError] (the step of [np.arange] is zero), and a negative
    knot distance over a positive cutoff gives no knot at all, without an
    error. *)
Theorem degenerate_knot_distance (cutoff : Z) (loc : string) :
  loc = "mid_point"%string \/ loc = "end_point"%string ->
  _set_knots_tp 0 cutoff loc = Error ZeroDivisionError /\
  (forall d, d < 0 -> 0 < cutoff -> _set_knots_tp d cutoff loc = Ok []).
Proof.
  intros [-> | ->].
  - split; [reflexivity |]. intros d Hd Hc.
    rewrite set_knots_tp_mid by lia.
    rewrite arange_len_zero; [reflexivity |]. right.
    pose proof (round_half_even_nonpos d Hd). lia.
  - split; [reflexivity |]. intros d Hd Hc.
    unfold _set_knots_tp. simpl. rewrite np_arange_eq by lia.
    rewrite arange_len_zero; [reflexivity |]. left. lia.
Qed.

Lemma degenerate_knot_distance_witness :
  _set_knots_tp 0 10 "end_point" = Error ZeroDivisionError /\
  _set_knots_tp (-3) 10 "end_point" = Ok [].
Proof.
  destruct (degenerate_knot_distance 10 "end_point" (or_intror eq_refl))
    as [Hz Hneg].
  split; [exact Hz | apply Hneg; lia].
Defined.

Lemma arange_len_exact (start stop step : Z) :
  0 < step -> start < stop ->
  Z.of_nat (arange_len start stop step) = ceil_div (stop - start) step.
Proof.
  intros Hs Hlt. unfold arange_len.
  destruct (ceil_div_lt_pos (stop - start) step 0 Hs) as [_ H].
  assert (0 < ceil_div (stop - start) step) by (apply H; lia). lia.
Qed.

(** X7.  For a positive knot distance and a cutoff of at least 2, the
    end-point placement has [ceil((cutoff - 1) / knots_distance)] knots,
    its last knot is the last observation [cutoff - 1], and the first
    observation (index 0) is never a knot; with a cutoff of 1 it has no
    knot. *)
Theorem end_point_extremes (knots_distance cutoff : Z) :
  0 < knots_distance -> 0 < cutoff ->
  exists knots_idx,
    _set_knots_tp knots_distance cutoff "end_point" = Ok knots_idx /\
    Z.of_nat (length knots_idx) = ceil_div (cutoff - 1) knots_distance /\
    ~ In 0 knots_idx /\
    (cutoff = 1 -> knots_idx = []) /\
    (2 <= cutoff -> last knots_idx 0 = cutoff - 1).
Proof.
  intros Hd Hc. rewrite set_knots_tp_end by exact Hd.
  set (n := arange_len (cutoff - 1) 0 (- knots_distance)).
  eexists. split; [reflexivity |].
  assert (Hn : Z.of_nat n = ceil_div (cutoff - 1) knots_distance).
  { unfold n, arange_len.
    assert (He : ceil_div (0 - (cutoff - 1)) (- knots_distance)
                 = ceil_div (cutoff - 1) knots_distance).
    { unfold ceil_div. f_equal.
      replace (- (0 - (cutoff - 1))) with (- - (cutoff - 1)) by lia.
      apply Z.div_opp_opp. lia. }
    rewrite He.
    destruct (ceil_div_lt_pos (cutoff - 1) knots_distance (-1) Hd) as [_ H].
    assert (-1 < ceil_div (cutoff - 1) knots_distance) by (apply H; lia).
    lia. }
  split; [now rewrite length_rev, progression_length |].
  split; [| split].
  - intros Hin. apply in_rev in Hin. apply in_progression in Hin.
    destruct Hin as [k [Hk Hx]]. apply arange_len_neg in Hk; lia.
  - intros ->. fold n.
    assert (n = 0%nat); [| now subst n; rewrite H].
    assert (ceil_div (1 - 1) knots_distance = 0) by reflexivity. lia.
  - intros H2. fold n.
    assert (Hpos : (0 < n)%nat).
    { destruct (ceil_div_lt_pos (cutoff - 1) knots_distance 0 Hd) as [_ H].
      assert (0 < ceil_div (cutoff - 1) knots_distance) by (apply H; lia).
      lia. }
    destruct n as [|n']; [lia |].
    unfold progression. simpl seq. simpl map. cbn [rev].
    rewrite last_last. lia.
Qed.

Lemma end_point_extremes_witness :
  exists knots_idx,
    _set_knots_tp 3 10 "end_point" = Ok knots_idx /\
    Z.of_nat (length knots_idx) = 3 /\
    last knots_idx 0 = 9.
Proof.
  destruct (end_point_extremes 3 10 ltac:(lia) ltac:(lia))
    as (idx & Hidx & Hlen & _ & _ & Hlast).
  exists idx. split; [exact Hidx |]. split; [exact Hlen | apply Hlast; lia].
Defined.

(** X8.  For a positive knot distance and a positive cutoff, the mid-point
    placement has no knot exactly when [round(knots_distance / 2)] is not
    below the cutoff; otherwise its first knot is
    [round(knots_distance / 2)], it has
    [ceil((cutoff - round(knots_distance / 2)) / knots_distance)] knots and
    its last knot is less than one knot distance before the cutoff. *)
Theorem mid_point_extremes (knots_distance cutoff : Z) :
  0 < knots_distance -> 0 < cutoff ->
  let start := round_half_even (knots_distance # 2) in
  exists knots_idx,
    _set_knots_tp knots_distance cutoff "mid_point" = Ok knots_idx /\
    (knots_idx = [] <-> cutoff <= start) /\
    (start < cutoff ->
     hd_error knots_idx = Some start /\
     Z.of_nat (length knots_idx) = ceil_div (cutoff - start) knots_distance /\
     cutoff - knots_distance <= last knots_idx 0 < cutoff).
Proof.
  intros Hd Hc start. rewrite set_knots_tp_mid by lia. fold start.
  remember (arange_len start cutoff knots_distance) as n eqn:En.
  eexists. split; [reflexivity |].
  split.
  - split.
    + intros He. apply (f_equal (@length Z)) in He.
      rewrite progression_length in He. simpl in He.
      destruct (Z_lt_le_dec start cutoff) as [Hlt|Hle]; [| exact Hle].
      assert (0 < n)%nat; [| lia].
      rewrite En. apply arange_len_pos; [exact Hd | simpl; lia].
    + intros Hle.
      assert (Hz : n = 0%nat) by (rewrite En; apply arange_len_zero; lia).
      now rewrite Hz.
  - intros Hlt.
    assert (Hlen : Z.of_nat n = ceil_div (cutoff - start) knots_distance)
      by (rewrite En; now apply arange_len_exact).
    assert (Hpos : (0 < n)%nat)
      by (rewrite En; apply arange_len_pos; [exact Hd | simpl; lia]).
    split; [| split].
    + destruct n as [|n']; [lia |]. unfold progression. simpl.
      f_equal. lia.
    + now rewrite progression_length.
    + destruct n as [|n']; [lia |].
      assert (H1 : (n' < arange_len start cutoff knots_distance)%nat) by lia.
      apply arange_len_pos in H1; [| exact Hd].
      assert (H2 : ~ (S n' < arange_len start cutoff knots_distance)%nat) by lia.
      rewrite arange_len_pos in H2 by exact Hd.
      replace (S n') with (n' + 1)%nat by lia.
      unfold progression. rewrite seq_app, map_app. simpl seq. simpl map.
      rewrite last_last. lia.
Qed.

Lemma mid_point_extremes_witness :
  exists knots_idx,
    _set_knots_tp 11 101 "mid_point" = Ok knots_idx /\
    hd_error knots_idx = Some 6 /\
    Z.of_nat (length knots_idx) = 9.
Proof.
  destruct (mid_point_extremes 11 101 ltac:(lia) ltac:(lia))
    as (idx & Hidx & _ & Hne).
  destruct (Hne ltac:(vm_compute; reflexivity)) as (Hhd & Hlen & _).
  exists idx. split; [exact Hidx |]. split; [exact Hhd | exact Hlen].
Defined.

(** ** Knot counts and positions of the index rule *)

Lemma set_knots_tp_sorted_range (d cutoff : Z) (loc : string) (idx : list Z) :
  0 < d -> 0 < cutoff ->
  _set_knots_tp d cutoff loc = Ok idx ->
  StronglySorted Z.lt idx /\ Forall (fun i => 0 <= i < cutoff) idx.
Proof.
  intros Hd Hc H.
  destruct (set_knots_tp_location _ _ _ _ H) as [-> | ->].
  - rewrite set_knots_tp_mid in H by lia. injection H as <-.
    split; [now apply progression_ascending |].
    pose proof (mid_start_bounds d Hd).
    apply Forall_forall. intros x Hx. apply in_progression in Hx.
    destruct Hx as [k [Hk ->]]. apply arange_len_pos in Hk; [| exact Hd]. nia.
  - rewrite set_knots_tp_end in H by exact Hd. injection H as <-.
    split; [apply rev_descending, progression_descending; lia |].
    apply Forall_forall. intros x Hx. apply in_rev in Hx.
    apply in_progression in Hx. destruct Hx as [k [Hk ->]].
    apply arange_len_neg in Hk; [| lia]. nia.
Qed.



Lemma ceil_div_one (n : Z) : ceil_div n 1 = n.
Proof. unfold ceil_div. rewrite Z.div_1_r. lia. Qed.

Lemma time_points_eq (n : Z) :
  time_points n
  = Ok (map (fun i => np_div (inject_Z i) (inject_Z n))
            (progression 1 1 0 (Z.to_nat n))).
Proof.
  unfold time_points. rewrite np_arange_eq by lia. simpl bind.
  unfold arange_len. replace (n + 1 - 1) with n by lia.
  now rewrite ceil_div_one.
Qed.

Lemma positions_of_sorted_idx (n : Z) (idx : list Z) :
  0 < n ->
  StronglySorted Z.lt idx ->
  strictly_increasing (knots_tp_of_idx idx n).
Proof.
  intros Hn. unfold strictly_increasing, knots_tp_of_idx.
  induction 1 as [|i idx Hs IH Hi]; cbn [map]; [constructor |].
  constructor; [exact IH |].
  apply Forall_forall. intros p Hp. apply in_map_iff in Hp.
  destruct Hp as [j [<- Hj]]. rewrite Forall_forall in Hi.
  apply np_div_lt.
  - rewrite <- (Zlt_Qlt 0). exact Hn.
  - rewrite <- Zlt_Qlt. specialize (Hi j Hj). lia.
Qed.

Lemma positions_in_unit (n : Z) (idx : list Z) :
  Forall (fun i => 0 <= i < n) idx ->
  Forall in_unit_interval (knots_tp_of_idx idx n).
Proof.
  intros H. unfold knots_tp_of_idx. apply Forall_forall. intros p Hp.
  apply in_map_iff in Hp. destruct Hp as [i [<- Hi]].
  rewrite Forall_forall in H. specialize (H i Hi).
  apply np_div_in_unit.
  - rewrite <- (Zlt_Qlt 0). lia.
  - rewrite <- Zle_Qle. lia.
Qed.

(** X10.  For a positive knot distance and a positive number of
    observations, the knot positions [(1 + knots_idx) / num_of_observations]
    of either placement lie in (0, 1], increase strictly, and the position
    of the knot with index [i] is the time point of observation [i]. *)
Theorem index_knot_positions (d n : Z) (loc : string) (idx : list Z)
    (tp : list npfloat) :
  0 < d -> 0 < n ->
  _set_knots_tp d n loc = Ok idx ->
  time_points n = Ok tp ->
  Forall in_unit_interval (knots_tp_of_idx idx n) /\
  strictly_increasing (knots_tp_of_idx idx n) /\
  map (fun i => nth_error tp (Z.to_nat i)) idx
  = map Some (knots_tp_of_idx idx n).
Proof.
  intros Hd Hn Hidx Htp.
  destruct (set_knots_tp_sorted_range _ _ _ _ Hd Hn Hidx) as [Hs Hr].
  split; [now apply positions_in_unit |].
  split; [now apply positions_of_sorted_idx |].
  rewrite time_points_eq in Htp. injection Htp as <-.
  unfold knots_tp_of_idx. rewrite map_map.
  apply map_ext_in. intros i Hi.
  rewrite Forall_forall in Hr. specialize (Hr i Hi).
  rewrite nth_error_map, nth_error_progression by lia.
  cbn [option_map]. rewrite Z2Nat.id by lia.
  replace (1 + i * 1) with (1 + i) by lia. reflexivity.
Qed.

Lemma index_knot_positions_witness :
  exists idx tp,
    _set_knots_tp 3 10 "end_point" = Ok idx /\
    time_points 10 = Ok tp /\
    knots_tp_of_idx idx 10 = [Some (2 # 5)%Q; Some (7 # 10)%Q; Some 1%Q] /\
    strictly_increasing (knots_tp_of_idx idx 10).
Proof.
  eexists. eexists. split; [reflexivity |]. split; [reflexivity |].
  split; [reflexivity |].
  match goal with
  | |- strictly_increasing (knots_tp_of_idx ?idx 10) =>
      destruct (index_knot_positions 3 10 "end_point" idx _
                  ltac:(lia) ltac:(lia) eq_refl eq_refl) as (_ & H & _)
  end.
  exact H.
Defined.

(** X11.  For a positive number of observations the time points are as
    many as the observations, lie in (0, 1], increase strictly and end at
    1; for zero or a negative number there is no time point and no
    division is made. *)
Theorem time_points_grid (n : Z) :
  (n <= 0 -> time_points n = Ok []) /\
  (0 < n ->
   exists tp,
     time_points n = Ok tp /\
     length tp = Z.to_nat n /\
     Forall in_unit_interval tp /\
     strictly_increasing tp /\
     last tp None = Some 1%Q).
Proof.
  rewrite time_points_eq. split.
  - intros Hn. replace (Z.to_nat n) with 0%nat by lia. reflexivity.
  - intros Hn. eexists. split; [reflexivity |].
    assert (Hshift : map (fun i => np_div (inject_Z i) (inject_Z n))
                         (progression 1 1 0 (Z.to_nat n))
                     = knots_tp_of_idx (progression 0 1 0 (Z.to_nat n)) n).
    { unfold knots_tp_of_idx, progression. rewrite !map_map.
      apply map_ext. intros k. reflexivity. }
    rewrite Hshift.
    split; [unfold knots_tp_of_idx; now rewrite length_map, progression_length |].
    split; [| split].
    + apply positions_in_unit. apply Forall_forall. intros x Hx.
      apply in_progression in Hx. destruct Hx as [k [Hk ->]]. lia.
    + apply positions_of_sorted_idx; [exact Hn |].
      apply progression_ascending. lia.
    + destruct (Z.to_nat n) as [|k] eqn:Ek; [lia |].
      replace (S k) with (k + 1)%nat by lia.
      unfold knots_tp_of_idx, progression.
      rewrite seq_app, !map_app. cbn [seq map]. rewrite last_last.
      replace (1 + (0 + Z.of_nat (0 + k) * 1)) with n by lia.
      assert (Hnz : ~ (inject_Z n == 0)%Q).
      { unfold Qeq. simpl. lia. }
      unfold np_div. destruct (Qeq_bool (inject_Z n) 0) eqn:Hz.
      * apply Qeq_bool_iff in Hz. contradiction.
      * f_equal. change 1%Q with (Qred 1). apply Qred_complete.
        now apply Qmult_inv_r.
Qed.

Lemma time_points_grid_witness :
  exists tp, time_points 4 = Ok tp /\ length tp = 4%nat /\ last tp None = Some 1%Q.
Proof.
  destruct (time_points_grid 4) as [_ H].
  destruct (H ltac:(lia)) as (tp & Htp & Hlen & _ & _ & Hlast).
  exists tp. auto.
Defined.

(** ** The seasonal basis step *)

Lemma fourier_loop_closed (E : externals) (c : seasonal_config) (shift : Z)
    (rest : list Q) :
  forall idx df,
    (idx + length rest <= length (_seasonality_fs_order c))%nat ->
    fourier_loop E c shift idx rest df
    = Ok (fold_left (fun d so =>
                       make_fourier_series_df E d (fst so) (snd so) (fst so) shift)
                    (combine rest (skipn idx (_seasonality_fs_order c))) df).
Proof.
  induction rest as [|s rest IH]; intros idx df Hlen; simpl in *.
  - reflexivity.
  - unfold py_index.
    destruct (nth_error (_seasonality_fs_order c) idx) as [order|] eqn:E1;
      [| apply nth_error_None in E1; lia].
    simpl bind. rewrite IH by lia.
    now rewrite (skipn_nth_error _ _ _ E1).
Qed.

Lemma make_seasonal_regressors_total (E : externals) (a : Args.t)
    (m : KTRLiteModel) (df : dataframe) (shift : Z) :
  __init__ a = Ok m ->
  exists df', _make_seasonal_regressors E (config m) df shift = Ok df'.
Proof.
  intros Hinit.
  destruct (init_inv a m Hinit) as (Hc & _).
  apply set_default_args_Ok in Hc. destruct Hc as (_ & _ & _ & Hlen & _).
  unfold _make_seasonal_regressors.
  destruct (0 <? length (_seasonality (config m)))%nat; [| eauto].
  rewrite fourier_loop_closed by (simpl; lia). eauto.
Qed.



(** ** When a fit call completes, and when it raises *)

Lemma np_take_total (values idx : list Z) :
  Forall (fun i => 0 <= i < Z.of_nat (length values)) idx ->
  exists dates, np_take values idx = Ok dates.
Proof.
  induction 1 as [|i idx Hi Hidx [dates IH]]; simpl.
  - eauto.
  - unfold np_index.
    destruct (Z.leb_spec 0 i); [| lia].
    destruct (Z.ltb_spec i (Z.of_nat (length values))); [| lia]. simpl.
    unfold py_index.
    destruct (nth_error values (Z.to_nat i)) eqn:En;
      [| apply nth_error_None in En; lia].
    simpl. rewrite IH. simpl. eauto.
Qed.

Lemma set_knots_tp_total (d cutoff : Z) (loc : string) :
  0 < d ->
  loc = "mid_point"%string \/ loc = "end_point"%string ->
  exists idx, _set_knots_tp d cutoff loc = Ok idx.
Proof.
  intros Hd [-> | ->].
  - rewrite set_knots_tp_mid by lia. eauto.
  - rewrite set_knots_tp_end by exact Hd. eauto.
Qed.

(** The index rule on a table with at least [n] rows. *)
Lemma index_knots_total (values : list Z) (d n : Z) (loc : string) :
  0 < d -> 0 < n -> n <= Z.of_nat (length values) ->
  loc = "mid_point"%string \/ loc = "end_point"%string ->
  exists idx dates,
    _set_knots_tp d n loc = Ok idx /\ np_take values idx = Ok dates.
Proof.
  intros Hd Hn Hlen Hloc.
  destruct (set_knots_tp_total d n loc Hd Hloc) as [idx Hidx].
  destruct (set_knots_tp_sorted_range _ _ _ _ Hd Hn Hidx) as [_ Hr].
  destruct (np_take_total values idx) as [dates Hdates].
  { revert Hr. apply Forall_impl. intros; lia. }
  eauto.
Qed.

(** The first mid-point knot is at most half of the knot distance, rounded
    up. *)
Lemma mid_start_half (d : Z) : 2 * round_half_even (d # 2) <= d + 1.
Proof.
  destruct (round_half_even_nearest (d # 2)) as (H & _).
  set (r := round_half_even (d # 2)) in *.
  unfold Qle, Qminus, Qplus, Qopp, inject_Z in H. cbn [Qnum Qden] in H. lia.
Qed.

(** A knot distance between 1 and the cutoff leaves at least one knot when
    the cutoff is at least 2. *)
Lemma set_knots_tp_nonempty (d cutoff : Z) (loc : string) (idx : list Z) :
  0 < d -> d <= cutoff -> 2 <= cutoff ->
  _set_knots_tp d cutoff loc = Ok idx ->
  idx <> [].
Proof.
  intros Hd Hle Hc H Hnil. subst idx.
  apply (f_equal (fun r => match r with Ok l => length l | Error _ => 1%nat end)) in H.
  unfold _set_knots_tp in H.
  destruct (String.eqb loc "mid_point").
  - rewrite np_arange_eq in H by lia. rewrite progression_length in H.
    pose proof (mid_start_half d) as Hs.
    destruct (arange_len_pos (round_half_even (d # 2)) cutoff d 0 Hd) as [_ Hk].
    simpl in H. lia.
  - destruct (String.eqb loc "end_point"); [| discriminate].
    rewrite np_arange_eq in H by lia. cbn [bind] in H.
    rewrite np_sort_descending in H by (apply progression_descending; lia).
    rewrite length_rev, progression_length in H.
    destruct (arange_len_neg (cutoff - 1) 0 (- d) 0 ltac:(lia)) as [_ Hk].
    simpl in H. lia.
Qed.

(** X13.  A first fit call completes whenever: the model was constructed
    without level knot dates, with a valid knot location and with orders
    of at least 1; both knot distances lie between 1 and the number of
    observations; the number of observations is at least 2, not below the
    largest seasonality and not above the number of rows of the table;
    the basis generator keeps the date column and, when there are
    regressors, leaves a table without a repeated column label; and the
    kernel returns on every non-empty knot vector. *)
Theorem fit_completes (E : externals) (a : Args.t) (m : KTRLiteModel)
    (df : dataframe) (meta : training_meta) (d_level d_coef : Z) :
  __init__ a = Ok m ->
  Args.level_knot_dates a = None ->
  Args.knot_location a = "mid_point"%string
  \/ Args.knot_location a = "end_point"%string ->
  Forall (fun o => 1 <= o) (_seasonality_fs_order (config m)) ->
  knots_distance_of (Args.level_knot_length a) (Args.span_level a)
                    (num_of_observations meta) = Ok d_level ->
  0 < d_level <= num_of_observations meta ->
  knots_distance_of (Args.coefficients_knot_length a) (Args.span_coefficients a)
                    (num_of_observations meta) = Ok d_coef ->
  0 < d_coef <= num_of_observations meta ->
  2 <= num_of_observations meta ->
  max_seasonality (config m) <= num_of_observations meta ->
  num_of_observations meta <= Z.of_nat (length (date_values df)) ->
  (forall d s o p sh,
     date_values (make_fourier_series_df E d s o p sh) = date_values d) ->
  ((0 < num_of_regressors (attrs m))%nat ->
   forall df', _make_seasonal_regressors E (config m) df 0 = Ok df' ->
               unique_labels (map fst (columns df')) = true) ->
  (forall tp knots, knots <> [] -> exists K, sandwich_kernel E tp knots = Ok K) ->
  exists m',
    set_dynamic_attributes E m df meta = Ok m' /\
    _cutoff (kernels m') = Some (num_of_observations meta) /\
    _level_knot_dates (kernels m') <> None /\
    kernel_level (kernels m') <> None /\
    kernel_coefficients (kernels m') <> None.
Proof.
  intros Hinit Hdates Hloc Horders Hdl [Hdlpos Hdlle] Hdc [Hdcpos Hdcle]
         Hn Hmax Hrows Hext Hlabels Hkernel.
  destruct (init_inv a m Hinit) as (_ & _ & Hargs & Hlkd & _).
  rewrite Hdates in Hlkd.
  destruct (make_seasonal_regressors_total E a m df 0 Hinit) as [df' Hbasis].
  pose proof (make_seasonal_regressors_dates E _ df _ 0 Hext Hbasis) as Hdv.
  rewrite <- Hdv in Hrows.
  assert (Hpos : 0 < num_of_observations meta) by lia.
  destruct (index_knots_total (date_values df') d_level _ (Args.knot_location a)
              Hdlpos Hpos Hrows Hloc) as (il & dl & Hil & Hdl').
  destruct (index_knots_total (date_values df') d_coef _ (Args.knot_location a)
              Hdcpos Hpos Hrows Hloc) as (ic & dc & Hic & Hdc').
  pose proof (set_knots_tp_nonempty _ _ _ _ Hdlpos Hdlle Hn Hil) as Hil_ne.
  pose proof (set_knots_tp_nonempty _ _ _ _ Hdcpos Hdcle Hn Hic) as Hic_ne.
  assert (Hpos_ne : forall idx : list Z,
             idx <> [] -> knots_tp_of_idx idx (num_of_observations meta) <> []).
  { intros [|i idx] Hne; [contradiction | discriminate]. }
  (* validation *)
  assert (Hv : exists v, _set_validate_ktr_params (config m) meta = Ok v).
  { unfold _set_validate_ktr_params.
    assert (Hlt : (num_of_observations meta <? max_seasonality (config m)) = false)
      by (apply Z.ltb_ge; exact Hmax).
    rewrite Hlt, andb_false_r. cbn [bind]. eauto. }
  destruct Hv as [v Hv].
  (* regressor matrix *)
  assert (Hneg : (num_of_observations meta <? 0) = false)
    by (apply Z.ltb_ge; lia).
  assert (Hr : exists r, _set_regressor_matrix (attrs m) df' meta = Ok r).
  { unfold _set_regressor_matrix, np_zeros. rewrite Hneg. cbn [bind].
    destruct (0 <? num_of_regressors (attrs m))%nat eqn:Hreg; [| eauto].
    apply Nat.ltb_lt in Hreg. unfold df_filter_values.
    rewrite (Hlabels Hreg df' Hbasis). eauto. }
  destruct Hr as [r Hr].
  (* kernels *)
  assert (Hlev : level_knots E m df' meta
                 = Ok (Some il, knots_tp_of_idx il (num_of_observations meta),
                       dl, date_freq (kernels m))).
  { unfold level_knots. rewrite Hlkd, Hargs, Hdl. cbn [bind].
    rewrite Hil. cbn [bind]. rewrite Hdl'. reflexivity. }
  assert (Hcoef : forall tp, exists coef,
             coefficient_knots E m df' meta tp = Ok coef).
  { intros tp. unfold coefficient_knots, np_zeros. rewrite Hneg. cbn [bind].
    rewrite Hargs. destruct (0 <? num_of_regressors (attrs m))%nat; [| eauto].
    rewrite Hdc. cbn [bind]. rewrite Hic. cbn [bind]. rewrite Hdc'.
    cbn [bind].
    destruct (Hkernel tp _ (Hpos_ne ic Hic_ne)) as [K HK]. rewrite HK.
    cbn [bind]. eauto. }
  assert (Hk : exists k, _set_kernel_matrix E m df' meta = Ok k /\
                         _cutoff k = Some (num_of_observations meta) /\
                         _level_knot_dates k <> None /\
                         kernel_level k <> None /\
                         kernel_coefficients k <> None).
  { unfold _set_kernel_matrix. rewrite time_points_eq. cbn [bind].
    rewrite Hlev. cbn [bind].
    match goal with
    | |- context [sandwich_kernel E ?tp ?knots] =>
        destruct (Hkernel tp knots (Hpos_ne il Hil_ne)) as [K HK]; rewrite HK;
        cbn [bind];
        destruct (Hcoef tp) as [[[[[ic' tc'] dc''] kc'] nc'] Hc']; rewrite Hc'
    end.
    cbn [bind]. eexists. split; [reflexivity |].
    repeat split; discriminate. }
  destruct Hk as (k & Hk & Hcut & Hlk & Hkl & Hkc).
  unfold set_dynamic_attributes.
  rewrite Hv. cbn [bind]. rewrite Hbasis. cbn [bind].
  rewrite Hr. cbn [bind]. rewrite Hk. cbn [bind].
  eexists. split; [reflexivity |]. repeat split; assumption.
Qed.

Lemma fit_completes_witness :
  exists m',
    set_dynamic_attributes sample_externals (model_of weekly_args)
      (sample_df 30 1) (sample_meta 30 1) = Ok m' /\
    _cutoff (kernels m') = Some 30 /\
    _level_knot_dates (kernels m') <> None /\
    kernel_level (kernels m') <> None /\
    kernel_coefficients (kernels m') <> None.
Proof.
  apply (fit_completes sample_externals weekly_args (model_of weekly_args)
           (sample_df 30 1) (sample_meta 30 1) 3 10).
  - reflexivity.
  - reflexivity.
  - left. reflexivity.
  - repeat constructor; simpl; lia.
  - reflexivity.
  - simpl. lia.
  - reflexivity.
  - simpl. lia.
  - simpl. lia.
  - vm_compute. discriminate.
  - vm_compute. discriminate.
  - intros d s o p sh. reflexivity.
  - intros _ df' Hdf'. vm_compute in Hdf'. injection Hdf' as <-. reflexivity.
  - intros tp [|x knots] Hne; [contradiction | simpl; eauto].
Defined.



(** X15.  With level knot dates stored on the model and no regressor, the
    knot location is never read: the kernel step gives the same result for
    every location, valid or not. *)
Theorem knot_location_unread_with_dates (E : externals) (m : KTRLiteModel)
    (df : dataframe) (meta : training_meta) (knot_dates : list Z) (loc : string) :
  _level_knot_dates (kernels m) = Some knot_dates ->
  num_of_regressors (attrs m) = 0%nat ->
  _set_kernel_matrix E (with_knot_location m loc) df meta
  = _set_kernel_matrix E m df meta.
Proof.
  intros Hdates Hnum.
  unfold _set_kernel_matrix, level_knots, coefficient_knots.
  cbn [kernels attrs args with_knot_location].
  rewrite Hdates, Hnum. reflexivity.
Qed.

Lemma knot_location_unread_with_dates_witness :
  let m := model_of (with_level_knots Args.default (Some [2; 5]) None None) in
  _set_kernel_matrix sample_externals (with_knot_location m "middle")
    (sample_df 10 1) (sample_meta 10 1)
  = _set_kernel_matrix sample_externals m (sample_df 10 1) (sample_meta 10 1).
Proof.
  intros m.
  apply (knot_location_unread_with_dates sample_externals m
           (sample_df 10 1) (sample_meta 10 1) [2; 5] "middle");
    reflexivity.
Defined.

(** ** Explicit knot dates at the edges *)

Lemma np_index_empty (i : Z) : np_index [] i = Error IndexError.
Proof.
  unfold np_index. simpl.
  destruct (Z.leb_spec 0 i), (Z.ltb_spec i 0); simpl; try reflexivity; lia.
Qed.

Lemma filter_none {A : Type} (f : A -> bool) (l : list A) :
  Forall (fun x => f x = false) l -> filter f l = [].
Proof.
  induction 1 as [|x l Hx Hl IH]; simpl; [reflexivity |].
  now rewrite Hx.
Qed.

(** X16.  With explicit level knot dates: on a table without rows a
    non-empty date list makes the kernel step raise [IndexError]; and when
    every supplied date lies outside the observed period and a date
    frequency is stored or can be inferred, no level knot is left, the
    kernel is called with an empty knot vector, and whatever it raises
    there is what the kernel step raises. *)
Theorem explicit_dates_edges (E : externals) (m : KTRLiteModel)
    (df : dataframe) (meta : training_meta) (knot_dates : list Z) :
  _level_knot_dates (kernels m) = Some knot_dates ->
  (date_values df = [] -> knot_dates <> [] ->
   _set_kernel_matrix E m df meta = Error IndexError) /\
  (forall first_date last_date freq,
     np_index (date_values df) 0 = Ok first_date ->
     np_index (date_values df) (-1) = Ok last_date ->
     Forall (fun x => x < first_date \/ last_date < x) knot_dates ->
     date_freq (kernels m) = Some freq
     \/ (date_freq (kernels m) = None /\
         infer_freq_unit E (date_values df) = Ok freq) ->
     level_knots E m df meta
     = Ok (_knots_idx_level (kernels m), [], [], Some freq) /\
     exists tp,
       time_points (num_of_observations meta) = Ok tp /\
       forall e, sandwich_kernel E tp [] = Error e ->
                 _set_kernel_matrix E m df meta = Error e).
Proof.
  intros Hdates. split.
  - intros He Hne. unfold _set_kernel_matrix. rewrite time_points_eq.
    cbn [bind]. unfold level_knots. rewrite Hdates, He.
    destruct knot_dates as [|x l]; [contradiction |].
    unfold within_training_period. rewrite np_index_empty. reflexivity.
  - intros first_date last_date freq Hf Hl Hout Hfreq.
    assert (Hkept : within_training_period knot_dates (date_values df) = Ok []).
    { rewrite (within_training_period_filter _ _ _ _ Hf Hl).
      rewrite filter_none; [reflexivity |].
      revert Hout. apply Forall_impl. intros x Hx.
      apply andb_false_iff.
      destruct Hx; [right; rewrite Z.geb_leb | left]; apply Z.leb_gt; lia. }
    assert (Hlev : level_knots E m df meta
                   = Ok (_knots_idx_level (kernels m), [], [], Some freq)).
    { unfold level_knots. rewrite Hdates, Hkept. cbn [bind].
      destruct Hfreq as [-> | [-> ->]]; reflexivity. }
    split; [exact Hlev |].
    eexists. split; [apply time_points_eq |].
    intros e He. unfold _set_kernel_matrix. rewrite time_points_eq.
    cbn [bind]. rewrite Hlev. cbn [bind]. rewrite He. reflexivity.
Qed.

Lemma explicit_dates_edges_witness :
  let m := model_of (with_level_knots Args.default (Some [40; 50]) None None) in
  _set_kernel_matrix sample_externals m (sample_df 10 1) (sample_meta 10 1)
  = Error IndexError.
Proof.
  intros m.
  destruct (explicit_dates_edges sample_externals m (sample_df 10 1)
              (sample_meta 10 1) [40; 50] eq_refl) as [_ H].
  destruct (H 0 9 1%positive eq_refl eq_refl) as (_ & tp & _ & Hraise).
  - repeat constructor; lia.
  - right. split; reflexivity.
  - apply Hraise. reflexivity.
Defined.

(** ** What the kernel step leaves on the model *)

Lemma np_take_length (values idx dates : list Z) :
  np_take values idx = Ok dates -> length dates = length idx.
Proof.
  revert dates. induction idx as [|i idx IH]; intros dates H; simpl in H.
  - now injection H as <-.
  - apply bind_Ok in H. destruct H as [x [_ H]].
    apply bind_Ok in H. destruct H as [xs [Hxs H]].
    injection H as <-. simpl. f_equal. now apply IH.
Qed.

(** X17.  After a kernel step that completes, the stored level knot dates,
    the level knot positions and the level knot count agree in number, the
    level kernel is what the smoothing kernel returned for the time points
    and those positions, and the cutoff is the number of observations;
    with regressors the same holds for the coefficient knots. *)
Theorem kernel_state_consistent (E : externals) (m : KTRLiteModel)
    (df : dataframe) (meta : training_meta) (k' : kernel_state) :
  _set_kernel_matrix E m df meta = Ok k' ->
  exists tp tp_level dates kernel_lev,
    time_points (num_of_observations meta) = Ok tp /\
    _cutoff k' = Some (num_of_observations meta) /\
    knots_tp_level k' = Some tp_level /\
    _level_knot_dates k' = Some dates /\
    length dates = length tp_level /\
    num_knots_level k' = Some (length tp_level) /\
    sandwich_kernel E tp tp_level = Ok kernel_lev /\
    kernel_level k' = Some kernel_lev /\
    ((0 < num_of_regressors (attrs m))%nat ->
     exists tp_coef dates_coef kernel_coef,
       knots_tp_coefficients k' = Some tp_coef /\
       _coef_knot_dates k' = Some dates_coef /\
       length dates_coef = length tp_coef /\
       num_knots_coefficients k' = Some (length tp_coef) /\
       sandwich_kernel E tp tp_coef = Ok kernel_coef /\
       kernel_coefficients k' = Some kernel_coef).
Proof.
  intros H. pose proof H as Hk. apply set_kernel_matrix_inv in H.
  destruct H as (tp & idx_level & tp_level & dates_level & freq_level
                 & idx_coef & tp_coef & dates_coef & kernel_coef & n_coef
                 & Htp & Hlev & Hcoef & Heq).
  assert (Htl : knots_tp_level k' = Some tp_level) by (rewrite Heq; reflexivity).
  destruct (set_kernel_matrix_level_kernel E m df meta k' tp tp_level Hk Htp Htl)
    as (kernel_lev & Hkl & Hstored).
  exists tp, tp_level, dates_level, kernel_lev.
  split; [exact Htp |].
  split; [rewrite Heq; reflexivity |].
  split; [exact Htl |].
  split; [rewrite Heq; reflexivity |].
  split; [| split; [rewrite Heq; reflexivity |
                    split; [exact Hkl | split; [exact Hstored |]]]].
  - destruct (_level_knot_dates (kernels m)) as [knot_dates|] eqn:Hd.
    + destruct (level_knots_date_branch E m df meta knot_dates _ Hd Hlev)
        as (kept & freq & _ & _ & Hr).
      injection Hr as -> -> -> ->.
      unfold knots_tp_of_dates. now rewrite length_map.
    + destruct (level_knots_index_branch E m df meta _ Hd Hlev)
        as (d & idx & dates & _ & _ & Htake & Hr).
      injection Hr as -> -> -> ->.
      unfold knots_tp_of_idx. rewrite length_map.
      now apply np_take_length in Htake.
  - intros Hpos.
    destruct (coefficient_knots_regressors E m df meta tp _ Hpos Hcoef)
      as (d & idx & dates & _ & _ & Htake & Hr).
    injection Hr as Hic Htc Hdc Hkc Hnc.
    subst idx_coef tp_coef dates_coef n_coef.
    pose proof (coefficient_knots_kernel E m df meta tp _ _ _ _ _ Hpos Hcoef)
      as Hkernel.
    rewrite Heq. cbn.
    exists (knots_tp_of_idx idx (num_of_observations meta)), dates, kernel_coef.
    repeat (split; [reflexivity |]).
    split; [| split; [reflexivity | split; [exact Hkernel | reflexivity]]].
    unfold knots_tp_of_idx. rewrite length_map.
    now apply np_take_length in Htake.
Qed.

Lemma kernel_state_consistent_witness :
  let k' := get empty_kernel_state
              (_set_kernel_matrix sample_externals (model_of weekly_args)
                 (sample_df 30 1) (sample_meta 30 1)) in
  num_knots_level k' = Some 10%nat /\ _cutoff k' = Some 30.
Proof.
  intros k'.
  destruct (kernel_state_consistent sample_externals (model_of weekly_args)
              (sample_df 30 1) (sample_meta 30 1) k'
              ltac:(vm_compute; reflexivity))
    as (tp & tpl & dates & kl & _ & Hcut & Htl & _ & _ & Hn & _).
  split; [| exact Hcut].
  rewrite Hn. vm_compute in Htl. injection Htl as <-. reflexivity.
Defined.

(** ** The regressor matrix *)

Lemma filter_columns_count (cols : list (colname * list npfloat))
    (items : list colname) :
  let sel := flat_map (fun name =>
                         match lookup_col name cols with
                         | Some c => [c]
                         | None => []
                         end) items in
  (length sel <= length items)%nat /\
  (Forall (fun name => lookup_col name cols <> None) items ->
   length sel = length items).
Proof.
  induction items as [|name items [IHle IHeq]]; simpl.
  - split; [lia | reflexivity].
  - destruct (lookup_col name cols) as [c|] eqn:Hc; simpl.
    + split; [lia |]. intros Hall. inversion Hall; subst. f_equal. now apply IHeq.
    + split; [lia |]. intros Hall. inversion Hall; subst. contradiction.
Qed.

(** X19.  A regressor matrix that is built has as many rows as its shape
    says and every row as wide as its shape says.  Without regressors its
    shape is [(num_of_observations, 0)]; with regressors its rows are those
    of the table (whatever [num_of_observations] is) and its columns are
    the regressor columns found in the table: columns that are missing are
    dropped without an error, and with none missing there is one column
    per regressor. *)
Theorem regressor_matrix_shape (a : seasonal_attrs) (df : dataframe)
    (meta : training_meta) (r : ndarray2) :
  _set_regressor_matrix a df meta = Ok r ->
  length (rows r) = fst (shape r) /\
  Forall (fun row => length row = snd (shape r)) (rows r) /\
  (num_of_regressors a = 0%nat ->
   shape r = (Z.to_nat (num_of_observations meta), 0%nat)) /\
  ((0 < num_of_regressors a)%nat ->
   fst (shape r) = length (date_values df) /\
   (snd (shape r) <= length (regressor_col a))%nat /\
   (Forall (fun name => lookup_col name (columns df) <> None) (regressor_col a) ->
    snd (shape r) = length (regressor_col a))).
Proof.
  unfold _set_regressor_matrix. intros H.
  apply bind_Ok in H. destruct H as [z [Hz H]].
  destruct (0 <? num_of_regressors a)%nat eqn:Hpos.
  - apply Nat.ltb_lt in Hpos.
    destruct (filter_columns_count (columns df) (regressor_col a)) as [Hle Heq].
    unfold df_filter_values in H.
    destruct (unique_labels (map fst (columns df))); [| discriminate].
    injection H as <-. cbn [shape rows fst snd].
    split; [now rewrite length_map, length_seq |].
    split; [| split; [lia | auto]].
    apply Forall_forall. intros row Hrow. apply in_map_iff in Hrow.
    destruct Hrow as [i [<- _]]. now rewrite length_map.
  - apply Nat.ltb_ge in Hpos. injection H as <-.
    unfold np_zeros in Hz. destruct (num_of_observations meta <? 0);
      [discriminate |]. injection Hz as <-. cbn [shape rows fst snd].
    split; [now rewrite repeat_length |].
    split; [| split; [reflexivity | lia]].
    apply Forall_forall. intros row Hrow. apply repeat_spec in Hrow.
    now subst row.
Qed.

Lemma regressor_matrix_shape_witness :
  let m := model_of weekly_args in
  let df' := get (sample_df 5 1)
               (_make_seasonal_regressors sample_externals (config m)
                  (sample_df 5 1) 0) in
  shape (get {| shape := (0%nat, 0%nat); rows := [] |}
             (_set_regressor_matrix (attrs m) df' (sample_meta 5 1)))
  = (5%nat, 4%nat).
Proof.
  intros m df'.
  destruct (regressor_matrix_shape (attrs m) df' (sample_meta 5 1)
              (get {| shape := (0%nat, 0%nat); rows := [] |}
                   (_set_regressor_matrix (attrs m) df' (sample_meta 5 1)))
              ltac:(vm_compute; reflexivity)) as (_ & _ & _ & H).
  destruct (H ltac:(vm_compute; lia)) as (Hr & _ & Hc).
  rewrite (surjective_pairing (shape _)).
  rewrite Hr, Hc; [reflexivity |].
  vm_compute. repeat constructor; discriminate.
Defined.

(** ** Initial values *)

Lemma list_sum_doubles {A : Type} (f : A -> nat) (l : list A) :
  list_sum (map (fun x => (2 * f x)%nat) l) = (2 * list_sum (map f l))%nat.
Proof.
  induction l as [|x l IH]; simpl in *; lia.
Qed.

Lemma regressor_count_even (a : Args.t) (m : KTRLiteModel) :
  __init__ a = Ok m ->
  exists half, num_of_regressors (attrs m) = (2 * half)%nat.
Proof.
  intros Hinit.
  destruct (init_inv a m Hinit) as (_ & Hattrs & _).
  destruct (set_seasonality_attributes_closed _ _ Hattrs)
    as (_ & _ & Hcol & _ & _ & Hnum).
  rewrite Hnum, Hcol.
  rewrite (flat_map_length_sum row_columns
             (fun r => (2 * Z.to_nat (fst (snd r)))%nat))
    by (intros r; apply fs_cols_of_length).
  rewrite list_sum_doubles. eauto.
Qed.

(** X20.  For a constructed model, [set_init_values] stores an initializer
    exactly when there are at least two seasonalities and at least one
    regressor.  The number of regressors is even, so an initializer stored
    after a fit always returns the one entry ['coef_knot'], a zero matrix
    of shape [(num_of_regressors, num_knots_coefficients)]; one stored
    before any fit raises [TypeError] when called, the knot count still
    being [None]. *)
Theorem init_values_after_fit (E : externals) (a : Args.t) (m m' : KTRLiteModel)
    (df : dataframe) (meta : training_meta) :
  __init__ a = Ok m ->
  set_dynamic_attributes E m df meta = Ok m' ->
  (set_init_values m' = None <->
   (length (_seasonality (config m)) <= 1)%nat \/ num_of_regressors (attrs m) = 0%nat) /\
  (forall i, set_init_values m' = Some i ->
     exists k z,
       num_knots_coefficients (kernels m') = Some k /\
       KTRLiteInitializer.call i = Ok [("coef_knot"%string, z)] /\
       shape z = (num_of_regressors (attrs m), k) /\
       rows z = repeat (repeat (Some 0%Q) k) (num_of_regressors (attrs m))) /\
  (forall i, set_init_values m = Some i ->
     KTRLiteInitializer.call i = Error TypeError).
Proof.
  intros Hinit Hfit.
  destruct (regressor_count_even a m Hinit) as [half Hhalf].
  apply set_dynamic_attributes_inv in Hfit.
  destruct Hfit as (v & df' & r & k1 & _ & _ & _ & Hk & ->).
  apply set_kernel_matrix_inv in Hk.
  destruct Hk as (tp & il & tl & dl & fl & ic & tc & dc & kc & nc
                  & _ & _ & _ & ->).
  unfold set_init_values. cbn [config attrs kernels num_knots_coefficients].
  split; [| split].
  - destruct (Nat.ltb_spec 1 (length (_seasonality (config m))));
      destruct (Nat.ltb_spec 0 (num_of_regressors (attrs m))); simpl;
      split; intros H'; try discriminate; try reflexivity;
      try (destruct H'; lia); auto; lia.
  - intros i Hi.
    destruct (Nat.ltb_spec 1 (length (_seasonality (config m))));
      destruct (Nat.ltb_spec 0 (num_of_regressors (attrs m))); simpl in Hi;
      try discriminate.
    injection Hi as <-.
    unfold KTRLiteInitializer.call.
    cbn [KTRLiteInitializer.num_regressor KTRLiteInitializer.num_knots_coefficients].
    destruct (Nat.ltb_spec 1 (num_of_regressors (attrs m))); [| lia].
    unfold np_zeros.
    destruct (Z.ltb_spec (Z.of_nat (num_of_regressors (attrs m))) 0); [lia |].
    cbn [bind]. rewrite Nat2Z.id. eauto 10.
  - intros i Hi.
    assert (Hnone : num_knots_coefficients (kernels m) = None).
    { unfold __init__ in Hinit.
      apply bind_Ok in Hinit. destruct Hinit as [c [_ Hinit]].
      apply bind_Ok in Hinit. destruct Hinit as [s [_ Hinit]].
      now injection Hinit as <-. }
    destruct (Nat.ltb_spec 1 (length (_seasonality (config m))));
      destruct (Nat.ltb_spec 0 (num_of_regressors (attrs m))); simpl in Hi;
      try discriminate.
    injection Hi as <-.
    unfold KTRLiteInitializer.call.
    cbn [KTRLiteInitializer.num_regressor KTRLiteInitializer.num_knots_coefficients].
    destruct (Nat.ltb_spec 1 (num_of_regressors (attrs m))); [| lia].
    now rewrite Hnone.
Qed.

Lemma init_values_after_fit_witness :
  let m := model_of two_seasons_args in
  let m' := get empty_model
              (set_dynamic_attributes sample_externals m
                 (sample_df 30 1) (sample_meta 30 1)) in
  exists i z,
    set_init_values m' = Some i /\
    KTRLiteInitializer.call i = Ok [("coef_knot"%string, z)] /\
    shape z = (10%nat, 3%nat).
Proof.
  intros m m'.
  destruct (init_values_after_fit sample_externals two_seasons_args m m'
              (sample_df 30 1) (sample_meta 30 1)
              eq_refl ltac:(vm_compute; reflexivity)) as (_ & Hcall & _).
  destruct (Hcall _ eq_refl) as (k & z & Hk & Hz & Hs & _).
  eexists. exists z. split; [reflexivity |]. split; [exact Hz |].
  rewrite Hs. vm_compute in Hk. injection Hk as <-. reflexivity.
Defined.

(** ** Fit calls after the first *)

(** X21.  Once a model has been fitted, a further fit call on the same
    inputs that completes leaves a model on which the next fit call on
    those inputs completes too and changes nothing: from the second call
    on, fitting is a fixed point. *)
Theorem second_fit_is_fixed_point (E : externals) (m m1 m2 : KTRLiteModel)
    (df : dataframe) (meta : training_meta) :
  set_dynamic_attributes E m df meta = Ok m1 ->
  set_dynamic_attributes E m1 df meta = Ok m2 ->
  set_dynamic_attributes E m2 df meta = Ok m2.
Proof.
  intros H1 H2.
  apply set_dynamic_attributes_inv in H1.
  destruct H1 as (v & df' & r & k1 & Hv & Hdf & Hr & Hk1 & ->).
  apply set_dynamic_attributes_inv in H2. cbn [config attrs] in H2.
  destruct H2 as (v2 & df2 & r2 & k2 & Hv2 & Hdf2 & Hr2 & Hk2 & ->).
  cbn [args config attrs].
  rewrite Hdf in Hdf2. injection Hdf2 as <-.
  apply set_kernel_matrix_inv in Hk1.
  destruct Hk1 as (tp & il & tl & dl & fl & ic & tc & dc & kc & nc
                   & Htp & Hlev & Hcoef & ->).
  pose proof Hk2 as Hkernel.
  apply set_kernel_matrix_inv in Hk2.
  destruct Hk2 as (tp2 & il2 & tl2 & dl2 & fl2 & ic2 & tc2 & dc2 & kc2 & nc2
                   & Htp2 & Hlev2 & Hcoef2 & ->).
  match type of Hlev2 with
  | level_knots _ ?m1 _ _ = _ =>
      destruct (level_knots_date_branch E m1 df' meta dl _ eq_refl Hlev2)
        as (kept & freq & Hkept & _ & Heq)
  end.
  cbn [kernels _knots_idx_level] in Heq. injection Heq as -> -> -> ->.
  destruct (set_kernel_matrix_level_kernel E _ df' meta _ tp2 _ Hkernel Htp2 eq_refl)
    as (kl & Hkl & _).
  apply within_training_period_idem in Hkept.
  match goal with
  | |- set_dynamic_attributes E ?m2 df meta = _ => set (M2 := m2)
  end.
  assert (Hlev3 : level_knots E M2 df' meta
                  = Ok (il,
                        knots_tp_of_dates (training_start meta) (training_end meta)
                                          freq kept,
                        kept, Some freq)).
  { unfold level_knots, M2. cbn [kernels _level_knot_dates date_freq _knots_idx_level].
    rewrite Hkept. reflexivity. }
  assert (Hcoef3 : coefficient_knots E M2 df' meta tp2
                   = Ok (ic2, tc2, dc2, kc2, nc2)).
  { match type of Hcoef2 with
    | coefficient_knots _ ?m1 _ _ _ = _ =>
        apply (coefficient_knots_refit E m1 M2 df' meta tp2 ic2 tc2 dc2 kc2 nc2);
          try reflexivity; exact Hcoef2
    end. }
  unfold set_dynamic_attributes.
  change (config M2) with (config m). change (attrs M2) with (attrs m).
  rewrite Hv2. cbn [bind]. rewrite Hdf. cbn [bind]. rewrite Hr2. cbn [bind].
  unfold _set_kernel_matrix. rewrite Htp2. cbn [bind].
  rewrite Hlev3. cbn [bind]. rewrite Hkl. cbn [bind].
  rewrite Hcoef3. cbn [bind].
  unfold M2. rewrite Hkl. reflexivity.
Qed.

Lemma second_fit_is_fixed_point_witness :
  let m := model_of (with_level_knots Args.default None (Some 1%positive) None) in
  let m1 := get empty_model
              (set_dynamic_attributes sample_externals m business_df business_meta) in
  let m2 := get empty_model
              (set_dynamic_attributes sample_externals m1 business_df business_meta) in
  set_dynamic_attributes sample_externals m2 business_df business_meta = Ok m2.
Proof.
  intros m m1 m2.
  apply (second_fit_is_fixed_point sample_externals m m1 m2);
    vm_compute; reflexivity.
Defined.

(** ** How construction can fail *)

Lemma check_fs_order_errors (seas : list Q) (orders : list Z) :
  forall k e,
    check_fs_order k orders seas = Error e ->
    e = order_too_high \/ e = IndexError.
Proof.
  induction orders as [|o orders IH]; intros k e H; cbn [check_fs_order] in H.
  - discriminate.
  - destruct (nth_error seas k) as [s|]; [| injection H as <-; now right].
    destruct (Qlt_bool (s - 1) (inject_Z (2 * o)));
      [injection H as <-; now left | eauto].
Qed.

Lemma seasonality_loop_errors (c : seasonal_config) (rest : list Q) :
  forall idx acc e,
    seasonality_loop c idx rest acc = Error e -> e = IndexError.
Proof.
  induction rest as [|s rest IH]; intros idx acc e H; simpl in H.
  - discriminate.
  - unfold py_index in H.
    destruct (nth_error (_seasonality_fs_order c) idx);
      [| simpl in H; congruence].
    destruct (nth_error (_seasonal_initial_knot_scale c) idx);
      [| simpl in H; congruence].
    destruct (nth_error (_seasonal_knot_scale c) idx);
      [| simpl in H; congruence].
    simpl in H. eauto.
Qed.

(** X22.  Construction raises nothing but [TypeError], the two
    [IllegalArgument] exceptions (length mismatch, order too high) and
    [IndexError].  In particular an empty seasonality list with no order
    raises [TypeError] (the length of [None] is taken), and so does a prior
    scale that is [None]. *)
Theorem construction_errors (a : Args.t) :
  (forall e, __init__ a = Error e ->
     e = TypeError \/ e = length_mismatch \/ e = order_too_high \/ e = IndexError) /\
  (Args.seasonality a = ArgList [] -> Args.seasonality_fs_order a = ArgNone ->
   __init__ a = Error TypeError) /\
  (Args.seasonality a = ArgNone -> Args.seasonal_initial_knot_scale a = ArgNone ->
   __init__ a = Error TypeError).
Proof.
  split; [| split].
  - intros e H. unfold __init__ in H.
    destruct (_set_default_args a) as [c|e0] eqn:Hc.
    + cbn [bind] in H. unfold _set_seasonality_attributes in H.
      destruct (seasonality_loop c 0 (_seasonality c) _) as [s|e1] eqn:Hl;
        cbn [bind] in H; [discriminate |].
      injection H as <-. apply seasonality_loop_errors in Hl. auto.
    + cbn [bind] in H. injection H as <-.
      unfold _set_default_args in Hc.
      destruct (default_seasonality a) as [seas0 order0].
      destruct (default_fs_order seas0 order0) as [|o|orders];
        cbn [py_len bind] in Hc; try (injection Hc as <-; now left).
      destruct seas0 as [|s|seas];
        cbn [py_len bind] in Hc; try (injection Hc as <-; now left).
      destruct (negb (length orders =? length seas)%nat);
        [injection Hc as <-; auto |].
      destruct (check_fs_order 0 orders seas) as [[]|e1] eqn:Hchk;
        cbn [bind] in Hc.
      * destruct (Args.seasonal_initial_knot_scale a);
          cbn [broadcast_scale bind] in Hc; try (injection Hc as <-; now left);
          destruct (Args.seasonal_knot_scale a);
          cbn [broadcast_scale bind] in Hc; try (injection Hc as <-; now left);
          discriminate.
      * injection Hc as <-. apply check_fs_order_errors in Hchk.
        destruct Hchk; auto.
  - intros Hs Ho. unfold __init__, _set_default_args, default_seasonality.
    rewrite Hs, Ho. reflexivity.
  - intros Hs Hi. unfold __init__, _set_default_args, default_seasonality.
    rewrite Hs. cbn. rewrite Hi. reflexivity.
Qed.

Lemma construction_errors_witness :
  __init__ (with_seasonality Args.default (ArgList []) ArgNone) = Error TypeError.
Proof.
  destruct (construction_errors
              (with_seasonality Args.default (ArgList []) ArgNone))
    as (_ & H & _).
  apply H; reflexivity.
Defined.

(** X23.  A single seasonality given without an order gets order 2, so
    with numeric prior scales the model is constructed exactly when the
    period is at least 5, and a shorter period raises the order-too-high
    exception. *)
Theorem default_order_needs_period_five (a : Args.t) (s x y : Q) :
  Args.seasonality a = ArgScalar s ->
  Args.seasonality_fs_order a = ArgNone ->
  Args.seasonal_initial_knot_scale a = ArgScalar x ->
  Args.seasonal_knot_scale a = ArgScalar y ->
  ((5 <= s)%Q ->
   exists m, __init__ a = Ok m /\
             _seasonality_fs_order (config m) = [2] /\
             num_of_regressors (attrs m) = 4%nat) /\
  ((s < 5)%Q -> __init__ a = Error order_too_high).
Proof.
  intros Hs Ho Hx Hy.
  assert (Hdef : _set_default_args a
                 = if Qlt_bool (s - 1) (inject_Z (2 * 2))
                   then Error order_too_high
                   else Ok {| _seasonality := [s];
                              _seasonality_fs_order := [2];
                              _seasonal_initial_knot_scale := [x];
                              _seasonal_knot_scale := [y] |}).
  { unfold _set_default_args, default_seasonality. rewrite Hs, Ho.
    cbn [default_fs_order truthy is_None andb py_len bind length repeat
         Nat.eqb negb check_fs_order nth_error].
    destruct (Qlt_bool (s - 1) (inject_Z (2 * 2))); [reflexivity |].
    cbn [bind]. rewrite Hx, Hy. reflexivity. }
  split.
  - intros Hle.
    assert (Hb : Qlt_bool (s - 1) (inject_Z (2 * 2)) = false).
    { apply Qlt_bool_false_iff.
      apply (Qplus_le_l _ _ 1). ring_simplify.
      exact Hle. }
    rewrite Hb in Hdef. unfold __init__. rewrite Hdef. cbn [bind].
    eexists. split; [reflexivity |]. split; reflexivity.
  - intros Hlt.
    assert (Hb : Qlt_bool (s - 1) (inject_Z (2 * 2)) = true).
    { apply Qlt_bool_iff.
      apply (Qplus_lt_l _ _ 1). ring_simplify.
      exact Hlt. }
    rewrite Hb in Hdef. unfold __init__. now rewrite Hdef.
Qed.

Lemma default_order_needs_period_five_witness :
  __init__ (with_seasonality Args.default (ArgScalar 4%Q) ArgNone)
  = Error order_too_high /\
  exists m,
    __init__ (with_seasonality Args.default (ArgScalar 5%Q) ArgNone) = Ok m /\
    num_of_regressors (attrs m) = 4%nat.
Proof.
  split.
  - destruct (default_order_needs_period_five
                (with_seasonality Args.default (ArgScalar 4%Q) ArgNone)
                4 1 (1 # 10) eq_refl eq_refl eq_refl eq_refl) as [_ H].
    apply H. reflexivity.
  - destruct (default_order_needs_period_five
                (with_seasonality Args.default (ArgScalar 5%Q) ArgNone)
                5 1 (1 # 10) eq_refl eq_refl eq_refl eq_refl) as [H _].
    destruct (H ltac:(discriminate)) as (m & Hm & _ & Hn).
    exists m. auto.
Defined.

(** ** Spans outside (0, 1) *)

Lemma round_half_even_small (q : Q) :
  (0 <= q)%Q -> (q < 1 # 2)%Q -> round_half_even q = 0.
Proof.
  intros H0 Hh.
  assert (Hf : Qfloor q = 0).
  { pose proof (Qfloor_le q) as Hle. pose proof (Qlt_floor q) as Hlt.
    assert (H1 : (inject_Z (Qfloor q) < 1)%Q).
    { eapply Qle_lt_trans; [exact Hle |].
      eapply Qlt_trans; [exact Hh | reflexivity]. }
    assert (H2 : (0 < inject_Z (Qfloor q + 1))%Q)
      by (eapply Qle_lt_trans; [exact H0 | exact Hlt]).
    rewrite <- (Zlt_Qlt _ 1) in H1. rewrite <- (Zlt_Qlt 0) in H2. lia. }
  unfold round_half_even. rewrite Hf.
  assert (Hc : Qcompare (q - inject_Z 0) (1 # 2) = Lt).
  { apply Qlt_alt. unfold Qminus. change (- inject_Z 0)%Q with 0%Q.
    now rewrite Qplus_0_r. }
  now rewrite Hc.
Qed.

Lemma round_half_even_negative (q : Q) : (q < 0)%Q -> round_half_even q <= 0.
Proof.
  intros Hq. pose proof (round_half_even_floor q) as Hr.
  pose proof (Qfloor_le q) as Hle.
  assert (H1 : (inject_Z (Qfloor q) < 0)%Q)
    by (eapply Qle_lt_trans; [exact Hle | exact Hq]).
  rewrite <- (Zlt_Qlt _ 0) in H1. lia.
Qed.

Lemma Qinv_neg (q : Q) : (q < 0)%Q -> (1 / q < 0)%Q.
Proof.
  destruct q as [[|p|p] d]; unfold Qlt, Qdiv, Qmult, Qinv; simpl; lia.
Qed.

Lemma Qinv_above_two (q : Q) : (2 < q)%Q -> (0 <= 1 / q)%Q /\ (1 / q < 1 # 2)%Q.
Proof.
  destruct q as [[|p|p] d]; unfold Qlt, Qle, Qdiv, Qmult, Qinv; simpl; lia.
Qed.

(** X24.  The spans are not validated.  A span of 0, or a span above 2
    (for which [round(1 / span)] is 0), makes the knot distance raise
    [ZeroDivisionError]; a negative span over a positive number of
    observations gives a knot distance that is not positive, so the
    placement either raises [ZeroDivisionError] or returns no knot. *)
Theorem span_out_of_range (span : Q) (n : Z) :
  ((span == 0)%Q -> knots_distance_of None span n = Error ZeroDivisionError) /\
  ((2 < span)%Q -> knots_distance_of None span n = Error ZeroDivisionError) /\
  ((span < 0)%Q -> 0 < n ->
   forall loc, loc = "mid_point"%string \/ loc = "end_point"%string ->
     (do d <- knots_distance_of None span n; _set_knots_tp d n loc)
     = Error ZeroDivisionError
     \/ (do d <- knots_distance_of None span n; _set_knots_tp d n loc) = Ok []).
Proof.
  unfold knots_distance_of. split; [| split].
  - intros Hz. apply Qeq_bool_iff in Hz. now rewrite Hz.
  - intros H2. destruct (Qeq_bool span 0); [reflexivity |].
    destruct (Qinv_above_two span H2) as [H0 Hh].
    now rewrite (round_half_even_small _ H0 Hh).
  - intros Hneg Hn loc Hloc.
    destruct (Qeq_bool span 0); [now left |].
    pose proof (round_half_even_negative _ (Qinv_neg span Hneg)) as Hk.
    destruct (Z.eqb_spec (round_half_even (1 / span)) 0) as [|Hnz]; [now left |].
    cbn [bind].
    set (k := round_half_even (1 / span)) in *.
    assert (Hd : ceil_div n k <= 0).
    { destruct (Z_lt_le_dec 0 (ceil_div n k)) as [Hlt|Hle]; [| exact Hle].
      apply (ceil_div_lt_neg n k 0) in Hlt; lia. }
    destruct (Z.eq_dec (ceil_div n k) 0) as [Hz|Hz].
    + left. rewrite Hz. destruct Hloc as [-> | ->]; reflexivity.
    + right. assert (Hlt : ceil_div n k < 0) by lia.
      destruct Hloc as [-> | ->].
      * rewrite set_knots_tp_mid by lia.
        rewrite arange_len_zero; [reflexivity |]. right.
        pose proof (round_half_even_nonpos _ Hlt). lia.
      * unfold _set_knots_tp. simpl. rewrite np_arange_eq by lia.
        rewrite arange_len_zero; [reflexivity |]. left. lia.
Qed.

Lemma span_out_of_range_witness :
  knots_distance_of None (5 # 2) 100 = Error ZeroDivisionError /\
  ((do d <- knots_distance_of None (- (1 # 10)) 100; _set_knots_tp d 100 "mid_point")
   = Error ZeroDivisionError
   \/ (do d <- knots_distance_of None (- (1 # 10)) 100; _set_knots_tp d 100 "mid_point")
      = Ok []).
Proof.
  destruct (span_out_of_range (5 # 2) 100) as (_ & H2 & _).
  destruct (span_out_of_range (- (1 # 10)) 100) as (_ & _ & Hneg).
  split.
  - apply H2. reflexivity.
  - apply Hneg; [reflexivity | lia | now left].
Defined.
